(** * Frame-fit camera utility and threaded headless launcher

    A shallow embedding of [framefit.py] and of the wait-and-report half of
    [threaded_headless_mayas_example.py].

    Numbers.  In the scene-level embedding Python floats are read as exact
    rationals ([Qc], canonical fractions, so that equal numbers are equal
    terms).  The one float value the code can manufacture that is not a
    number, the [nan] that [numpy.mean] returns for an empty slice, is kept
    as a separate constructor of [array].  The numeric steps of
    [framefit.py] are embedded a second time with the arithmetic left open
    (module [Core]), so that they can also be run in IEEE 754 double
    precision, the arithmetic Python and numpy compute them in.

    Host.  Everything the scripts ask of Maya goes through [Scene]: a record
    of what the queries answer and of what the commands have changed. *)

From Stdlib Require Import List String ZArith QArith Qcanon Bool Permutation Lia.
From Stdlib Require PrimFloat FloatOps SpecFloat FloatAxioms Uint63.
Import ListNotations.

Open Scope Qc_scope.

(** ** Python built-ins used by the scripts *)

Module Py.

(** [min(a, b)]: the first argument unless the second is strictly smaller. *)
Definition min (a b : Qc) : Qc :=
  match b ?= a with Lt => b | _ => a end.

(** [max(a, b)]: the first argument unless the second is strictly larger. *)
Definition max (a b : Qc) : Qc :=
  match b ?= a with Gt => b | _ => a end.

(** [a == b] on floats. *)
Definition eqb (a b : Qc) : bool :=
  match a ?= b with Eq => true | _ => false end.

(** [int(x)] on a float: truncation toward zero. *)
Definition int (x : Qc) : Z :=
  Z.quot (Qnum (this x)) (Zpos (Qden (this x))).

Definition of_int (z : Z) : Qc := Q2Qc (inject_Z z).

(** [', '.join(l)] *)
Fixpoint join (sep : string) (l : list string) : string :=
  match l with
  | [] => EmptyString
  | [x] => x
  | x :: rest => x ++ sep ++ join sep rest
  end.

(** The exception classes that matter here.  [KeyboardInterrupt] and
    [SystemExit] derive from [BaseException] only; the others derive
    from [Exception]. *)
Inductive exn :=
| AssertionError
| RuntimeError
| ValueError
| TypeError
| KeyboardInterrupt
| SystemExit.

Definition isinstance_Exception (e : exn) : bool :=
  match e with
  | KeyboardInterrupt | SystemExit => false
  | _ => true
  end.

End Py.

(** ** numpy arrays of three floats *)

Module Numpy.

Record vec := V { vx : Qc; vy : Qc; vz : Qc }.

Definition vadd (a b : vec) : vec := V (vx a + vx b) (vy a + vy b) (vz a + vz b).
Definition vsub (a b : vec) : vec := V (vx a - vx b) (vy a - vy b) (vz a - vz b).
Definition vscale (a : vec) (k : Qc) : vec := V (vx a * k) (vy a * k) (vz a * k).
Definition vzero : vec := V 0 0 0.

(** A value that is either a 3-array of numbers or [nan] in every
    component ([numpy.mean] of nothing, and whatever is computed from it). *)
Inductive array :=
| Arr (v : vec)
| NaNs.

Definition add (a b : array) : array :=
  match a, b with Arr x, Arr y => Arr (vadd x y) | _, _ => NaNs end.
Definition sub (a b : array) : array :=
  match a, b with Arr x, Arr y => Arr (vsub x y) | _, _ => NaNs end.
Definition scale (a : array) (k : Qc) : array :=
  match a with Arr x => Arr (vscale x k) | NaNs => NaNs end.

Definition vsum (l : list vec) : vec := fold_right vadd vzero l.

Definition count (l : list vec) : Qc := Py.of_int (Z.of_nat (List.length l)).

(** [numpy.mean(l, axis=0)]: the column sums over the number of rows;
    [nan] (with a warning, not an exception) when there is no row. *)
Definition mean (l : list vec) : array :=
  match l with
  | [] => NaNs
  | _ :: _ =>
      let s := vsum l in
      let n := count l in
      Arr (V (vx s / n) (vy s / n) (vz s / n))
  end.

End Numpy.
Import Numpy.

(** ** The host scene and its commands *)

Module Maya.

Inductive node_type := transform | joint | other_type.

Record camera := Camera {
  translate : array;          (* world-space translation, [xform(ws, t)] *)
  centerOfInterest : Qc       (* the [.centerOfInterest] attribute *)
}.

Record Scene := mkScene {
  (* every node name [cmds.ls] can list, and each node's type *)
  node_names : list string;
  type_of : string -> node_type;
  (* [listRelatives(n, shapes=True)]; the empty list stands for [None] *)
  shapes_under : string -> list string;
  (* world-space control vertices of a shape when it is a NURBS curve;
     [None] when [MFnNurbsCurve] refuses the shape *)
  curve_cvs : string -> option (list vec);
  (* [ls(invisible=True, dag=True)] *)
  invisible_nodes : list string;
  (* the active selection list *)
  selected : list string;
  cameras : string -> camera;
  (* where the host's own [viewFit] puts a camera, given the selection *)
  fit : string -> list string -> camera -> camera;
  (* camera of the panel with focus; [None] when the query fails *)
  panel_camera : option string;
  (* undo chunks opened and not yet closed *)
  open_chunks : nat;
  (* what [traceback.print_exc] has reported *)
  tracebacks : list Py.exn
}.

Definition with_selected (l : list string) (s : Scene) : Scene :=
  mkScene (node_names s) (type_of s) (shapes_under s) (curve_cvs s)
          (invisible_nodes s) l (cameras s) (fit s) (panel_camera s)
          (open_chunks s) (tracebacks s).

Definition with_cameras (c : string -> camera) (s : Scene) : Scene :=
  mkScene (node_names s) (type_of s) (shapes_under s) (curve_cvs s)
          (invisible_nodes s) (selected s) c (fit s) (panel_camera s)
          (open_chunks s) (tracebacks s).

Definition with_open_chunks (n : nat) (s : Scene) : Scene :=
  mkScene (node_names s) (type_of s) (shapes_under s) (curve_cvs s)
          (invisible_nodes s) (selected s) (cameras s) (fit s) (panel_camera s)
          n (tracebacks s).

Definition with_tracebacks (l : list Py.exn) (s : Scene) : Scene :=
  mkScene (node_names s) (type_of s) (shapes_under s) (curve_cvs s)
          (invisible_nodes s) (selected s) (cameras s) (fit s) (panel_camera s)
          (open_chunks s) l.

Definition set_camera (name : string) (c : camera) (s : Scene) : Scene :=
  with_cameras (fun n => if String.eqb n name then c else cameras s n) s.

(** *** Commands: a state monad over [Scene] with Python exceptions *)

Inductive outcome (A : Type) :=
| Returns (a : A)
| Raises (e : Py.exn).
Arguments Returns {A} a.
Arguments Raises {A} e.

Definition M (A : Type) := Scene -> outcome A * Scene.

Definition ret {A} (a : A) : M A := fun s => (Returns a, s).

Definition raise {A} (e : Py.exn) : M A := fun s => (Raises e, s).

Definition bind {A B} (m : M A) (k : A -> M B) : M B :=
  fun s =>
    match m s with
    | (Returns a, s') => k a s'
    | (Raises e, s') => (Raises e, s')
    end.

Definition gets {A} (f : Scene -> A) : M A := fun s => (Returns (f s), s).

Definition modify (f : Scene -> Scene) : M unit := fun s => (Returns tt, f s).

(** [try: body / except C: handler], where [catches] says which
    exceptions are instances of [C]. *)
Definition try_except {A} (body : M A) (catches : Py.exn -> bool)
           (handler : Py.exn -> M A) : M A :=
  fun s =>
    match body s with
    | (Returns a, s') => (Returns a, s')
    | (Raises e, s') => if catches e then handler e s' else (Raises e, s')
    end.

(** [try: body / finally: cleanup]: the cleanup always runs; what the body
    raised is raised again after it, unless the cleanup itself raises. *)
Definition try_finally {A} (body : M A) (cleanup : M unit) : M A :=
  fun s =>
    match body s with
    | (r, s') =>
        match cleanup s' with
        | (Returns _, s'') => (r, s'')
        | (Raises e, s'') => (Raises e, s'')
        end
    end.

Declare Scope maya_scope.
Delimit Scope maya_scope with maya.
Notation "x <- m ;; k" := (bind m (fun x => k))
  (at level 61, m at next level, right associativity) : maya_scope.
Notation "m ;;; k" := (bind m (fun _ => k))
  (at level 61, right associativity) : maya_scope.
Open Scope maya_scope.

Definition listRelatives_shapes (node : string) : M (list string) :=
  gets (fun s => shapes_under s node).

Definition select (l : list string) : M unit := modify (with_selected l).

Definition getActiveSelectionList : M (list string) := gets selected.

Definition ls_invisible : M (list string) := gets invisible_nodes.

Definition ls_selection : M (list string) := gets selected.

Definition is_transform_or_joint (s : Scene) (n : string) : bool :=
  match type_of s n with
  | transform | joint => true
  | other_type => false
  end.

(** [ls(sl=True, type=['transform', 'joint'])] *)
Definition ls_selection_of_type : M (list string) :=
  gets (fun s => filter (is_transform_or_joint s) (selected s)).

Definition ends_with (suffix name : string) : bool :=
  let n := String.length name in
  let k := String.length suffix in
  (k <=? n)%nat && String.eqb (substring (n - k) k name) suffix.

(** [ls(['*suffix', ...], type=['transform', 'joint'], r=True)] *)
Definition ls_by_suffix (suffixes : list string) : M (list string) :=
  gets (fun s =>
    flat_map
      (fun suffix =>
         filter (fun n => ends_with suffix n && is_transform_or_joint s n)
                (node_names s))
      suffixes).

(** [viewFit(camera, allObjects=False, fitFactor=0.8)]: the host places
    the camera for the current selection. *)
Definition viewFit (cam : string) : M unit :=
  modify (fun s => set_camera cam (fit s cam (selected s) (cameras s cam)) s).

(** [xform(camera, q=True, ws=True, t=True)] *)
Definition xform_query_translation (cam : string) : M array :=
  gets (fun s => translate (cameras s cam)).

(** [xform(camera, ws=True, t=pos)] *)
Definition xform_set_translation (cam : string) (pos : array) : M unit :=
  modify (fun s =>
    set_camera cam (Camera pos (centerOfInterest (cameras s cam))) s).

(** [getAttr(camera + '.centerOfInterest')] *)
Definition getAttr_centerOfInterest (cam : string) : M Qc :=
  gets (fun s => centerOfInterest (cameras s cam)).

(** [setAttr(camera + '.centerOfInterest', value)] *)
Definition setAttr_centerOfInterest (cam : string) (value : Qc) : M unit :=
  modify (fun s =>
    set_camera cam (Camera (translate (cameras s cam)) value) s).

Definition undoInfo_openChunk : M unit :=
  modify (fun s => with_open_chunks (S (open_chunks s)) s).

Definition undoInfo_closeChunk : M unit :=
  modify (fun s => with_open_chunks (Nat.pred (open_chunks s)) s).

(** [modelEditor(getPanel(wf=True), q=True, camera=True)] *)
Definition modelEditor_camera : M string :=
  fun s =>
    match panel_camera s with
    | Some c => (Returns c, s)
    | None => (Raises Py.RuntimeError, s)
    end.

Definition print_exc (e : Py.exn) : M unit :=
  modify (fun s => with_tracebacks (tracebacks s ++ [e]) s).

End Maya.
Import Maya.

(** ** framefit.py *)

Module Framefit.

(** [get_all_rig_controls] *)
Definition get_all_rig_controls : M (list string) :=
  ls_by_suffix ["_anim"; "_control"]%string.

(** The list [[min_x, min_y, min_z, max_x, max_y, max_z]] that
    [get_bounds_of_anim_control_shapes] returns. *)
Record bounds := Bounds {
  min_x : Qc; min_y : Qc; min_z : Qc;
  max_x : Qc; max_y : Qc; max_z : Qc
}.

Definition bounds_list (b : bounds) : list Qc :=
  [min_x b; min_y b; min_z b; max_x b; max_y b; max_z b].

(** The "massive initial bound volume". *)
Definition initial_bounds : bounds :=
  Bounds (Py.of_int 9999999) (Py.of_int 9999999) (Py.of_int 9999999)
         (Py.of_int (-9999999)) (Py.of_int (-9999999)) (Py.of_int (-9999999)).

(** Body of the loop over the control vertices of one curve. *)
Definition include_point (b : bounds) (p : vec) : bounds :=
  Bounds (Py.min (vx p) (min_x b)) (Py.min (vy p) (min_y b))
         (Py.min (vz p) (min_z b))
         (Py.max (vx p) (max_x b)) (Py.max (vy p) (max_y b))
         (Py.max (vz p) (max_z b)).

(** Body of the loop over the selected shapes: a shape that is not a NURBS
    curve is skipped. *)
Definition include_shape (s : Scene) (b : bounds) (shape : string) : bounds :=
  match curve_cvs s shape with
  | None => b
  | Some point_list => fold_left include_point point_list b
  end.

(** [get_bounds_of_anim_control_shapes]; item [i] of the selection list is
    read for [i] in [range(len(shapes))]. *)
Definition get_bounds_of_anim_control_shapes (control : string) : M bounds :=
  shapes <- listRelatives_shapes control ;;
  match shapes with
  | [] => raise Py.AssertionError
  | _ :: _ =>
      select shapes ;;;
      selection_list <- getActiveSelectionList ;;
      gets (fun s =>
        fold_left (include_shape s)
                  (firstn (List.length shapes) selection_list)
                  initial_bounds)
  end.

(** [get_centre_in_bounds] *)
Definition get_centre_in_bounds (min_x min_y min_z max_x max_y max_z : Qc) : vec :=
  let min_bounds := V min_x min_y min_z in
  let max_bounds := V max_x max_y max_z in
  let vector := vsub min_bounds max_bounds in
  let centre_pos := vadd max_bounds (vscale vector (Q2Qc (1 # 2))) in
  centre_pos.

(** [get_centre_in_bounds( *b )] *)
Definition centre_of (b : bounds) : vec :=
  get_centre_in_bounds (min_x b) (min_y b) (min_z b)
                       (max_x b) (max_y b) (max_z b).

(** First loop of [framefit_animrig]: the shapes of every target that has
    some, and those targets. *)
Fixpoint clean_targets (s : Scene) (targets : list string)
  : list string * list string :=
  match targets with
  | [] => ([], [])
  | i :: rest =>
      let (shapes, targets_) := clean_targets s rest in
      match shapes_under s i with
      | [] => (shapes, targets_)
      | sh => (sh ++ shapes, i :: targets_)
      end
  end.

Definition mem (x : string) (l : list string) : bool :=
  existsb (String.eqb x) l.

(** [set(targets).difference(set(invisible))], listed without repetition, each
    name where it occurs last (Python leaves the order of a set open). *)
Definition set_difference (targets invisible : list string) : list string :=
  nodup string_dec (filter (fun t => negb (mem t invisible)) targets).

(** Second loop of [framefit_animrig]. *)
Fixpoint collect_centre_points (todo : list string) (centre_points : list vec)
  : M (list vec) :=
  match todo with
  | [] => ret centre_points
  | i :: rest =>
      r <- try_except
             (b <- get_bounds_of_anim_control_shapes i ;; ret (Some b))
             (fun e => match e with Py.AssertionError => true | _ => false end)
             (fun _ => ret None) ;;
      match r with
      | None => collect_centre_points rest centre_points
      | Some target_local_bounds =>
          let bounds_centre := centre_of target_local_bounds in
          collect_centre_points rest (centre_points ++ [bounds_centre])
      end
  end.

(** [max(0.0, min(zoom_amount, 1.0))] *)
Definition clamp (zoom_amount : Qc) : Qc :=
  Py.max 0 (Py.min zoom_amount 1).

(** [framefit_animrig] *)
Definition framefit_animrig (target_camera : string) (targets : list string)
           (zoom_amount : Qc) : M unit :=
  cleaned <- gets (fun s => clean_targets s targets) ;;
  let (shapes, targets_) := (cleaned : list string * list string) in
  match targets_ with
  | [] => ret tt
  | _ :: _ =>
      select shapes ;;;
      viewFit target_camera ;;;
      invisible <- ls_invisible ;;
      centre_points <- collect_centre_points (set_difference targets_ invisible) [] ;;
      let centre_pos := mean centre_points in
      if Py.eqb zoom_amount 0 then ret tt
      else
        camera_pos <- xform_query_translation target_camera ;;
        let vector := sub centre_pos camera_pos in
        let delta := clamp zoom_amount in
        let moveto_pos := add camera_pos (scale vector delta) in
        xform_set_translation target_camera moveto_pos ;;;
        coi <- getAttr_centerOfInterest target_camera ;;
        setAttr_centerOfInterest target_camera
          (Py.of_int (Py.int (coi * (1 - delta))))
  end.

(** [framefit_animrig_current_panel_to_selected], with the framing
    computation it calls left open. *)
Definition current_panel_to_selected_calling
           (framing : string -> list string -> Qc -> M unit)
           (target_camera : option string) : M unit :=
  target_camera <-
    match target_camera with
    | Some c =>
        if String.eqb c EmptyString
        then try_except modelEditor_camera
               (fun e => match e with Py.RuntimeError => true | _ => false end)
               (fun _ => ret "persp"%string)
        else ret c
    | None =>
        try_except modelEditor_camera
          (fun e => match e with Py.RuntimeError => true | _ => false end)
          (fun _ => ret "persp"%string)
    end ;;
  sel <- ls_selection ;;
  try_finally
    (try_except
       (undoInfo_openChunk ;;;
        picked <- ls_selection_of_type ;;
        targets <- match picked with
                   | [] => get_all_rig_controls
                   | _ :: _ => ret picked
                   end ;;
        framing target_camera targets (Q2Qc (1 # 4)))
       Py.isinstance_Exception
       (fun e => print_exc e))
    (undoInfo_closeChunk ;;; select sel).

Definition framefit_animrig_current_panel_to_selected
  : option string -> M unit :=
  current_panel_to_selected_calling framefit_animrig.

End Framefit.
Import Framefit.

(** ** threaded_headless_mayas_example.py, from the threads on *)

Module Headless.

Open Scope string_scope.

(** A [pathlib] path, as far as the launcher looks at it. *)
Record Path := mkPath {
  str : string;       (* [str(p)], used by the success line *)
  name : string       (* [p.name], the final component *)
}.

(** A spawned worker, by what [communicate()] finds once it has exited.
    The pipes are opened with [universal_newlines=True], so what the worker
    wrote is decoded.  [decodes] is false when [communicate()] raises
    [UnicodeDecodeError] over it, as CPython does where it decodes in the
    calling thread (its POSIX implementation; the Windows one reads the
    pipes in helper threads and returns [None] for a stream it cannot
    decode, which is a worker with [decodes] true here). *)
Record Popen := mkPopen {
  returncode : Z;
  out : string;
  err : string;
  decodes : bool
}.

(** The two lists every thread appends to. *)
Record shared := mkShared {
  success : list (string * Path);
  errors : list (string * Path)
}.

(** [run_create_anim_threaded]: block on the worker, then one append.  When
    [communicate()] raises, the exception ends the thread there (nothing
    in the thread catches it, and [join()] does not pass it on): neither
    list is appended to. *)
Definition run_create_anim_threaded (_p : Popen) (_t : Path) (sh : shared)
  : shared :=
  if negb (decodes _p) then sh
  else if Z.eqb (returncode _p) 0
  then mkShared (success sh ++ [("Success", _t)]) (errors sh)
  else mkShared (success sh) (errors sh ++ [(err _p, _t)]).

(** All threads started and joined.  A thread touches the shared lists only
    in its single append, so a run is fixed by the order in which the
    workers are found finished. *)
Definition join_all (finished : list (Popen * Path)) : shared :=
  fold_left (fun sh i => run_create_anim_threaded (fst i) (snd i) sh)
            finished (mkShared [] []).

Record report := mkReport {
  printed : list string;
  (* message of the [AssertionError] raised at the end, if one is *)
  raised : option string
}.

(** Lines 128-136 of [anim_rig_generator]. *)
Definition summarise (sh : shared) : report :=
  mkReport
    (map (fun i => "CreateAnim: " ++ str (snd i)) (success sh)
     ++ map (fun e => fst e) (errors sh))
    (match errors sh with
     | [] => None
     | _ :: _ =>
         let failed_paths := Py.join ", " (map (fun i => name (snd i)) (errors sh)) in
         Some ("Failed Files: " ++ failed_paths)
     end).

(** [anim_rig_generator] once the workers are spawned (lines 105-136). *)
Definition anim_rig_generator (finished : list (Popen * Path)) : report :=
  summarise (join_all finished).

Definition exited_ok (i : Popen * Path) : bool := Z.eqb (returncode (fst i)) 0.

Definition exited_badly (i : Popen * Path) : bool := negb (exited_ok i).

(** [communicate()] returned the worker's output, and the worker exited
    with code 0 (resp. with another code). *)
Definition read_ok (i : Popen * Path) : bool :=
  decodes (fst i) && exited_ok i.

Definition read_badly (i : Popen * Path) : bool :=
  decodes (fst i) && exited_badly i.

End Headless.

(** ** Notions the statements below are phrased with *)

Module Spec.

Definition two : Qc := Py.of_int 2.

(** [clamp(f, 0, 1)]: 0 below 0, 1 above 1, and [f] itself in between. *)
Definition clamped (f : Qc) : Qc :=
  match f ?= 0 with
  | Lt => 0
  | _ => match f ?= 1 with Gt => 1 | _ => f end
  end.

(** The elementwise [(min + max) / 2] of an extent. *)
Definition midpoint (b : bounds) : vec :=
  V ((min_x b + max_x b) / two)
    ((min_y b + max_y b) / two)
    ((min_z b + max_z b) / two).

(** The plain average of a list of numbers. *)
Definition average (l : list Qc) : Qc :=
  fold_right Qcplus 0 l / Py.of_int (Z.of_nat (List.length l)).

(** The elementwise average of a list of points. *)
Definition elementwise_average (l : list vec) : vec :=
  V (average (map vx l)) (average (map vy l)) (average (map vz l)).

(** [min <= max] on every axis. *)
Definition well_formed (b : bounds) : Prop :=
  min_x b <= max_x b /\ min_y b <= max_y b /\ min_z b <= max_z b.

(** The control vertices [get_bounds_of_anim_control_shapes] samples for a
    control: those of each of its shapes that is a curve. *)
Definition sampled_points (s : Scene) (control : string) : list vec :=
  flat_map (fun shape => match curve_cvs s shape with
                         | Some point_list => point_list
                         | None => []
                         end)
           (shapes_under s control).

(** The extent of a control that has shapes. *)
Definition extent (s : Scene) (control : string) : bounds :=
  fold_left include_point (sampled_points s control) initial_bounds.

Definition has_shapes (s : Scene) (control : string) : bool :=
  match shapes_under s control with [] => false | _ :: _ => true end.

(** The targets that are left once [framefit_animrig] has dropped those
    without shapes and those the host lists as invisible. *)
Definition remaining_targets (s : Scene) (targets : list string) : list string :=
  set_difference (snd (clean_targets s targets)) (invisible_nodes s).

(** The per-target centre points [framefit_animrig] averages. *)
Definition centre_points (s : Scene) (targets : list string) : list vec :=
  map (fun i => centre_of (extent s i)) (remaining_targets s targets).

(** The scene once the shapes are selected and the host's [viewFit] has
    run: the state in which the camera position is read back. *)
Definition after_view_fit (cam : string) (targets : list string) (s : Scene)
  : Scene :=
  let s1 := with_selected (fst (clean_targets s targets)) s in
  set_camera cam (fit s1 cam (selected s1) (cameras s1 cam)) s1.

(** A point lies within an extent. *)
Definition covers (b : bounds) (p : vec) : Prop :=
  (min_x b <= vx p /\ vx p <= max_x b) /\
  (min_y b <= vy p /\ vy p <= max_y b) /\
  (min_z b <= vz p /\ vz p <= max_z b).

(** The selection the second loop of [framefit_animrig] ends on: the
    shapes of the last control with shapes it went through. *)
Fixpoint selection_after (shapes_of : string -> list string)
         (todo : list string) (sel : list string) : list string :=
  match todo with
  | [] => sel
  | i :: rest =>
      match shapes_of i with
      | [] => selection_after shapes_of rest sel
      | sh => selection_after shapes_of rest sh
      end
  end.

(** The scene [framefit_animrig] leaves. *)
Definition framed (cam : string) (targets : list string) (zoom_amount : Qc)
           (s : Scene) : Scene :=
  match snd (clean_targets s targets) with
  | [] => s
  | _ :: _ =>
      let s1 := after_view_fit cam targets s in
      let s2 := with_selected
                  (selection_after (shapes_under s)
                                   (remaining_targets s targets) (selected s1))
                  s1 in
      if Py.eqb zoom_amount 0 then s2
      else
        let camera_pos := translate (cameras s2 cam) in
        let delta := clamp zoom_amount in
        let moveto_pos :=
          add camera_pos
              (scale (sub (mean (centre_points s targets)) camera_pos) delta) in
        let coi := centerOfInterest (cameras s2 cam) in
        let s3 := set_camera cam (Camera moveto_pos coi) s2 in
        set_camera cam
          (Camera (translate (cameras s3 cam))
                  (Py.of_int (Py.int (centerOfInterest (cameras s3 cam)
                                      * (1 - delta)))))
          s3
  end.

(** Two scenes that differ at most in their cameras. *)
Definition same_but_cameras (a b : Scene) : Prop :=
  node_names a = node_names b /\ type_of a = type_of b /\
  shapes_under a = shapes_under b /\ curve_cvs a = curve_cvs b /\
  invisible_nodes a = invisible_nodes b /\ selected a = selected b /\
  fit a = fit b /\ panel_camera a = panel_camera b /\
  open_chunks a = open_chunks b /\ tracebacks a = tracebacks b.

(** The camera the entry point works on. *)
Definition resolved_camera (target_camera : option string) (s : Scene)
  : string :=
  let of_panel := match panel_camera s with
                  | Some c => c
                  | None => "persp"%string
                  end in
  match target_camera with
  | Some c => if String.eqb c EmptyString then of_panel else c
  | None => of_panel
  end.

(** The targets the entry point hands to the framing computation: the
    selected transforms and joints, or every rig control if there is none. *)
Definition resolved_targets (s : Scene) : list string :=
  match filter (is_transform_or_joint s) (selected s) with
  | [] =>
      flat_map
        (fun suffix =>
           filter (fun n => ends_with suffix n && is_transform_or_joint s n)
                  (node_names s))
        ["_anim"; "_control"]%string
  | picked => picked
  end.

(** The scene in which the entry point calls the framing computation. *)
Definition chunk_opened (s : Scene) : Scene :=
  with_open_chunks (S (open_chunks s)) s.

End Spec.
Import Spec.

(** ** Small scenes to run the scripts on *)

Module Demo.

Open Scope string_scope.

(** A host whose [viewFit] leaves the camera where it is. *)
Definition keep_camera (cam : string) (sel : list string) (c : camera)
  : camera := c.

(** A host whose [viewFit] frames every selection from (0, 0, 10). *)
Definition frame_from_front (cam : string) (sel : list string) (c : camera)
  : camera := Camera (Arr (V 0 0 (Py.of_int 10))) (centerOfInterest c).

Definition pt (x y z : Z) : vec := V (Py.of_int x) (Py.of_int y) (Py.of_int z).

(** Three controls: [box_anim] and [ball_anim] each carry one curve, with
    extents (0,0,0,2,2,2) and (4,4,4,6,6,6); [pin_anim] carries a mesh. *)
Definition rig (invisible : list string)
           (host_fit : string -> list string -> camera -> camera)
           (persp : camera) : Scene :=
  mkScene
    ["box_anim"; "ball_anim"; "pin_anim"]
    (fun _ => transform)
    (fun n => if String.eqb n "box_anim" then ["box_animShape"]
              else if String.eqb n "ball_anim" then ["ball_animShape"]
              else if String.eqb n "pin_anim" then ["pin_animShape"]
              else [])
    (fun sh => if String.eqb sh "box_animShape" then Some [pt 0 0 0; pt 2 2 2]
               else if String.eqb sh "ball_animShape" then Some [pt 4 4 4; pt 6 6 6]
               else None)
    invisible
    ["box_anim"; "ball_anim"]
    (fun _ => persp)
    host_fit
    (Some "persp")
    0
    [].

Definition both : list string := ["box_anim"; "ball_anim"].

(** A framing computation that is interrupted from the keyboard. *)
Definition interrupted (cam : string) (targets : list string) (zoom : Qc)
  : M unit := raise Py.KeyboardInterrupt.

(** A framing computation that fails with a host error after having
    changed the selection. *)
Definition failing (cam : string) (targets : list string) (zoom : Qc)
  : M unit := select targets ;;; raise Py.RuntimeError.

End Demo.

(** ** Scenes given by tables *)

Module Fixtures.

Open Scope string_scope.

Fixpoint lookup {A} (default : A) (table : list (string * A)) (key : string) : A :=
  match table with
  | [] => default
  | (k, v) :: rest => if String.eqb key k then v else lookup default rest key
  end.

(** A scene of transforms: [shapes] lists the shapes under each control,
    [curves] the control vertices of each shape that is a curve.  The one
    camera sits at (3, 3, -7) with a centre of interest of 10, and the
    host's [viewFit] keeps it there. *)
Definition scene (shapes : list (string * list string))
           (curves : list (string * list vec))
           (invisible selection : list string) : Scene :=
  mkScene
    (map fst shapes)
    (fun _ => transform)
    (lookup [] shapes)
    (lookup None (map (fun c => (fst c, Some (snd c))) curves))
    invisible
    selection
    (fun _ => Camera (Arr (Demo.pt 3 3 (-7))) (Py.of_int 10))
    Demo.keep_camera
    (Some "persp")
    0
    [].

End Fixtures.

(** ** Further notions for statements *)

Module Notions.

(** The size of the "massive initial bound volume". *)
Definition sentinel : Qc := Py.of_int 9999999.

(** Every coordinate of the point is within the initial bound volume. *)
Definition within_sentinel (p : vec) : Prop :=
  (- sentinel <= vx p /\ vx p <= sentinel) /\
  (- sentinel <= vy p /\ vy p <= sentinel) /\
  (- sentinel <= vz p /\ vz p <= sentinel).

(** The number is the given coordinate of one of the points. *)
Definition attained (pts : list vec) (coordinate : vec -> Qc) (v : Qc) : Prop :=
  exists p, In p pts /\ v = coordinate p.

End Notions.
Import Notions.

(** ** The arithmetic of the numbers *)

Module Numbers.

(** What [framefit.py] asks of its numbers. *)
Record arithmetic := mkArithmetic {
  num : Type;
  zero : num;                      (* [0.0] *)
  one : num;                       (* [1.0] and [1] *)
  half : num;                      (* [0.5] *)
  add : num -> num -> num;
  sub : num -> num -> num;
  mul : num -> num -> num;
  div : num -> num -> num;
  ltb : num -> num -> bool;        (* [a < b], and [b > a] *)
  eqb : num -> num -> bool;        (* [a == b] *)
  of_nat : nat -> num;             (* a non-negative [int] as a float *)
  int : num -> option Z            (* [int(x)]; [None] when it raises *)
}.

(** Exact arithmetic on rationals, as in the scene-level embedding. *)
Definition exact : arithmetic :=
  mkArithmetic Qc 0 1 (Q2Qc (1 # 2)) Qcplus Qcminus Qcmult Qcdiv
    (fun a b => match a ?= b with Lt => true | _ => false end)
    Py.eqb
    (fun n => Py.of_int (Z.of_nat n))
    (fun x => Some (Py.int x)).

(** [int(x)] on a double: the integer part, toward zero.  Python raises
    [ValueError] on nan and [OverflowError] on an infinity. *)
Definition int_of_double (x : PrimFloat.float) : option Z :=
  match FloatOps.Prim2SF x with
  | SpecFloat.S754_zero _ => Some 0%Z
  | SpecFloat.S754_finite negative m e =>
      let magnitude := Z.shiftl (Zpos m) e in
      Some (if negative then (- magnitude)%Z else magnitude)
  | SpecFloat.S754_infinity _ => None
  | SpecFloat.S754_nan => None
  end.

(** IEEE 754 binary64 with round-to-nearest-even: the arithmetic of Python's
    [float] and of numpy's [float64]. *)
Definition double : arithmetic :=
  mkArithmetic PrimFloat.float PrimFloat.zero PrimFloat.one
    (PrimFloat.div PrimFloat.one PrimFloat.two)
    PrimFloat.add PrimFloat.sub PrimFloat.mul PrimFloat.div
    PrimFloat.ltb PrimFloat.eqb
    (fun n => PrimFloat.of_uint63 (Uint63.of_Z (Z.of_nat n)))
    int_of_double.

End Numbers.

(** ** The numeric steps of framefit.py, in any arithmetic *)

Module Core.

Import Numbers.

Section WithArithmetic.

Variable A : arithmetic.

(** A numpy array of three floats. *)
Record point := P { px : num A; py : num A; pz : num A }.

Definition padd (a b : point) : point :=
  P (add A (px a) (px b)) (add A (py a) (py b)) (add A (pz a) (pz b)).
Definition psub (a b : point) : point :=
  P (sub A (px a) (px b)) (sub A (py a) (py b)) (sub A (pz a) (pz b)).
Definition pscale (a : point) (k : num A) : point :=
  P (mul A (px a) k) (mul A (py a) k) (mul A (pz a) k).
Definition pdiv (a : point) (k : num A) : point :=
  P (div A (px a) k) (div A (py a) k) (div A (pz a) k).

(** [min(a, b)] and [max(a, b)] of Python: the first argument unless the
    second is strictly smaller (resp. larger). *)
Definition min (a b : num A) : num A := if ltb A b a then b else a.
Definition max (a b : num A) : num A := if ltb A a b then b else a.

(** [get_centre_in_bounds] *)
Definition get_centre_in_bounds (min_x min_y min_z max_x max_y max_z : num A)
  : point :=
  let min_bounds := P min_x min_y min_z in
  let max_bounds := P max_x max_y max_z in
  let vector := psub min_bounds max_bounds in
  let centre_pos := padd max_bounds (pscale vector (half A)) in
  centre_pos.

(** [numpy.mean(rows, axis=0)]: the rows are added one after the other onto
    the first, and the sum is divided by their number.  [None] stands for
    the array of nan that numpy returns (with a warning) for no row. *)
Definition mean (rows : list point) : option point :=
  match rows with
  | [] => None
  | first :: rest =>
      Some (pdiv (fold_left padd rest first) (of_nat A (List.length rows)))
  end.

(** [max(0.0, min(zoom_amount, 1.0))] *)
Definition clamp (zoom_amount : num A) : num A :=
  max (zero A) (min zoom_amount (one A)).

(** What lines 174-190 of [framefit_animrig] do to the camera. *)
Inductive zoomed :=
| Untouched
  (* line 175: returned before anything was written *)
| Moved (moveto_pos : point) (coi : option Z).
  (* [moveto_pos] written by [xform]; then [coi] given to [setAttr], or
     [int()] raised *)

(** Lines 174-190 of [framefit_animrig], from the mean centroid, the camera
    position read back and the [centerOfInterest] read back. *)
Definition zoom (centre_pos camera_pos : point) (coi zoom_amount : num A)
  : zoomed :=
  if eqb A zoom_amount (zero A) then Untouched
  else
    let vector := psub centre_pos camera_pos in
    let delta := clamp zoom_amount in
    let moveto_pos := padd camera_pos (pscale vector delta) in
    Moved moveto_pos (int A (mul A coi (sub A (one A) delta))).

(** The position written and the integer handed to [setAttr]. *)
Definition written_position (z : zoomed) : option point :=
  match z with Untouched => None | Moved pos _ => Some pos end.

Definition written_coi (z : zoomed) : option Z :=
  match z with Untouched => None | Moved _ coi => coi end.

(** *** Notions the statements are phrased with *)

(** [clamp(f, 0, 1)]: 1 above 1, [f] itself from 0 up to 1, and 0
    otherwise. *)
Definition clamped (f : num A) : num A :=
  if ltb A (one A) f then one A
  else if ltb A (zero A) f then f
  else zero A.

(** The elementwise [(min + max) / 2]. *)
Definition midpoint (min_x min_y min_z max_x max_y max_z : num A) : point :=
  let two := add A (one A) (one A) in
  P (div A (add A min_x max_x) two)
    (div A (add A min_y max_y) two)
    (div A (add A min_z max_z) two).

End WithArithmetic.

Arguments P {A} px py pz.
Arguments px {A} p.
Arguments py {A} p.
Arguments pz {A} p.
Arguments Untouched {A}.
Arguments Moved {A} moveto_pos coi.
Arguments written_position {A} z.
Arguments written_coi {A} z.

(** A point of the scene-level embedding as a point in exact arithmetic,
    and back. *)
Definition of_vec (v : vec) : point exact := P (A := exact) (vx v) (vy v) (vz v).
Definition to_vec (p : point exact) : vec := V (px p) (py p) (pz p).

End Core.

(** ** threaded_headless_mayas_example.py, the whole of [anim_rig_generator] *)

Module Launch.

Import Headless.
Open Scope string_scope.

(** What the launcher does to the world around it, in the order it does
    it. *)
Inductive event :=
| Checkout (anim_set_data : list (string * Path))
| Print (line : string)
| Save
| MakeDirs (parent_of : Path)
| Remove (file : string)
| CopyFile (file_path temp_file : string)
| Spawn (command : string).

(** How a call ends. *)
Inductive ending :=
| Returned
| FailedFiles (message : string)       (* the [AssertionError] of line 136 *)
| Raised (e : Py.exn).

Record run := mkRun { trace : list event; ended : ending }.

(** What the world answers. *)
Record Host := mkHost {
  mayapy : Path;                   (* [mayapy.exe] beside [sys.executable] *)
  mayapy_exists : bool;
  scene_name : Path;               (* [pm.sceneName()] *)
  anim_sets : list string;         (* [ls('*_Anim', type='objectSet', r=True)] *)
  save_raises : option Py.exn;     (* what [cmds.file(save=True, ...)] raises *)
  temp_parent_exists : bool;
  temp_file_exists : bool;
  script_dir : string;             (* [os.path.dirname(__file__)] *)
  worker : string -> Popen;        (* how the process of a command line ends *)
  finish_order : list (Popen * Path) -> list (Popen * Path)
}.

Definition quote : string := String (Ascii.ascii_of_nat 34) EmptyString.
Definition newline : string := String (Ascii.ascii_of_nat 10) EmptyString.
Definition tab : string := String (Ascii.ascii_of_nat 9) EmptyString.

(** An optional string inside an f-string. *)
Definition format_optional (o : option string) : string :=
  match o with Some x => x | None => "None" end.

(** The keys of a dict built from a list of keys: each once, where it
    comes first. *)
Fixpoint dict_keys (l : list string) : list string :=
  match l with
  | [] => []
  | k :: rest => k :: filter (fun x => negb (String.eqb x k)) (dict_keys rest)
  end.

(** [if target_anim_sets:] *)
Definition given (target_anim_sets : option (list string)) : bool :=
  match target_anim_sets with
  | Some (_ :: _) => true
  | _ => false
  end.

Section Generator.

(** Not in these sources: [AnimRigFunctions.get_target_path_from_set], and
    the path [pathlib.Path] makes of a string. *)
Variable get_target_path_from_set : string -> string -> Path.
Variable pathlib_Path : string -> Path.

(** Lines 50-62: the sets to export, each with its target path. *)
Definition anim_set_data (h : Host) (target_anim_sets : option (list string))
           (extension : string) : list (string * Path) :=
  let all :=
    map (fun anim_set => (anim_set, get_target_path_from_set anim_set extension))
        (dict_keys (anim_sets h)) in
  if given target_anim_sets
  then filter (fun ij => match target_anim_sets with
                         | Some l => mem (fst ij) l
                         | None => false
                         end) all
  else all.

Definition temp_file (h : Host) : Path :=
  pathlib_Path ("C:/Temp/Maya/CreateAnimRig_Temp_" ++ name (scene_name h)).

Definition headless_script (h : Host) : string :=
  script_dir h ++ "/AnimRigRunHeadless.py".

(** Line 95. *)
Definition command (h : Host) (pre_export_script_path : option string)
           (anim_set : string) (target_path : Path) : string :=
  quote ++ str (mayapy h) ++ quote ++ " " ++ headless_script h ++ " "
  ++ str (temp_file h) ++ " " ++ anim_set ++ " " ++ str target_path ++ " "
  ++ format_optional pre_export_script_path.

(** The [processes] list of lines 88-103: each worker with its target
    path. *)
Definition processes (h : Host) (target_anim_sets : option (list string))
           (pre_export_script_path : option string) (extension : string)
  : list (Popen * Path) :=
  map (fun job =>
         (worker h (command h pre_export_script_path (fst job) (snd job)),
          snd job))
      (anim_set_data h target_anim_sets extension).

(** [anim_rig_generator] *)
Definition anim_rig_generator (h : Host)
           (target_anim_sets : option (list string))
           (pre_export_script_path : option string)
           (extension : string) : run :=
  if negb (mayapy_exists h) then mkRun [] (Raised Py.AssertionError)
  else
    let data := anim_set_data h target_anim_sets extension in
    let saving := [Checkout data; Print "Saving this scene."; Save] in
    (* [except Exception: pass] lets through what is not an [Exception] *)
    let escaped :=
      match save_raises h with
      | Some e => if Py.isinstance_Exception e then None else Some e
      | None => None
      end in
    match escaped with
    | Some e => mkRun saving (Raised e)
    | None =>
        let makedirs :=
          if temp_parent_exists h then [] else [MakeDirs (temp_file h)] in
        let remove :=
          if temp_file_exists h then [Remove (str (temp_file h))] else [] in
        let cloning :=
          List.app makedirs
            (List.app remove
               [Print ("Cloning to temporary path:" ++ newline ++ tab
                       ++ str (temp_file h));
                CopyFile (str (scene_name h)) (str (temp_file h))]) in
        let spawning :=
          flat_map
            (fun job =>
               [Print ("Creating " ++ fst job ++ " to " ++ str (snd job));
                Spawn (command h pre_export_script_path (fst job) (snd job))])
            data in
        let processes :=
          map (fun job =>
                 (worker h (command h pre_export_script_path (fst job) (snd job)),
                  snd job))
              data in
        let r := Headless.anim_rig_generator (finish_order h processes) in
        mkRun (List.app saving
                 (List.app cloning (List.app spawning (map Print (printed r)))))
              (match raised r with
               | None => Returned
               | Some message => FailedFiles message
               end)
    end.

End Generator.

(** The command lines of the processes started, in order. *)
Definition spawned (events : list event) : list string :=
  flat_map (fun e => match e with Spawn c => [c] | _ => [] end) events.

(** The launcher gets as far as cloning the scene: [mayapy.exe] is there
    and saving raises nothing but an [Exception]. *)
Definition proceeds (h : Host) : bool :=
  mayapy_exists h &&
  match save_raises h with
  | Some e => Py.isinstance_Exception e
  | None => true
  end.

Definition requested (target_anim_sets : option (list string)) : list string :=
  match target_anim_sets with Some l => l | None => [] end.

End Launch.

(** ** A small batch to run the launcher on *)

Module LaunchDemo.

Import Headless Launch.
Open Scope string_scope.

Definition target_path (anim_set extension : string) : Path :=
  mkPath ("C:/Rigs/" ++ anim_set ++ "." ++ extension)
         (anim_set ++ "." ++ extension).

Definition as_path (text : string) : Path := mkPath text text.

(** A scene [herd.mb] that lists [Hero_Anim] (twice) and [Horse_Anim];
    every worker exits with the given code, and the workers are found
    finished in the reverse of the order they were started in. *)
Definition host (exit_code : Z) : Host :=
  mkHost (mkPath "C:/Maya/bin/mayapy.exe" "mayapy.exe") true
         (mkPath "D:/work/herd.mb" "herd.mb")
         ["Hero_Anim"; "Horse_Anim"; "Hero_Anim"]
         None true false "D:/tools"
         (fun _ => mkPopen exit_code "" "no output" true)
         (@rev (Popen * Path)).

End LaunchDemo.

(** * Properties *)

(** ** Arithmetic of [min], [max] and [int] *)

Section PyArith.

Lemma min_le_first (a b : Qc) : Py.min a b <= a.
Proof.
  unfold Py.min. destruct (b ?= a) eqn:E.
  - apply Qcle_refl.
  - apply Qclt_le_weak. now apply Qclt_alt.
  - apply Qcle_refl.
Qed.

Lemma min_le_second (a b : Qc) : Py.min a b <= b.
Proof.
  unfold Py.min. destruct (b ?= a) eqn:E.
  - apply Qceq_alt in E. subst. apply Qcle_refl.
  - apply Qcle_refl.
  - apply Qclt_le_weak. now apply Qcgt_alt in E.
Qed.

Lemma max_ge_first (a b : Qc) : a <= Py.max a b.
Proof.
  unfold Py.max. destruct (b ?= a) eqn:E.
  - apply Qcle_refl.
  - apply Qcle_refl.
  - apply Qclt_le_weak. now apply Qcgt_alt in E.
Qed.

Lemma max_ge_second (a b : Qc) : b <= Py.max a b.
Proof.
  unfold Py.max. destruct (b ?= a) eqn:E.
  - apply Qceq_alt in E. subst. apply Qcle_refl.
  - apply Qclt_le_weak. now apply Qclt_alt.
  - apply Qcle_refl.
Qed.

Lemma eqb_true (a b : Qc) : Py.eqb a b = true -> a = b.
Proof.
  unfold Py.eqb. destruct (a ?= b) eqn:E; try discriminate.
  intros _. now apply Qceq_alt.
Qed.

Lemma eqb_refl (a : Qc) : Py.eqb a a = true.
Proof.
  unfold Py.eqb. assert (H : (a ?= a) = Eq) by now apply Qceq_alt.
  now rewrite H.
Qed.

Lemma half_is_half : Q2Qc (1 # 2) = 1 / two.
Proof. apply Qc_is_canon. reflexivity. Qed.

Lemma two_neq_0 : two <> 0.
Proof. intro H. discriminate H. Qed.

Lemma int_of_int (z : Z) : Py.int (Py.of_int z) = z.
Proof.
  unfold Py.int, Py.of_int. cbn [this Q2Qc].
  rewrite Qred_identity by (cbn; apply Z.gcd_1_r).
  cbn. apply Z.quot_1_r.
Qed.

Lemma int_truncates_toward_zero :
  Py.int (Q2Qc (15 # 2)) = 7%Z /\ Py.int (Q2Qc (-15 # 2)) = (-7)%Z.
Proof. split; reflexivity. Qed.

Lemma vec_ext (a b c a' b' c' : Qc) :
  a = a' -> b = b' -> c = c' -> V a b c = V a' b' c'.
Proof. now intros -> -> ->. Qed.

End PyArith.

(** Decides an equation between two closed numbers, points or arrays. *)
Ltac same_point :=
  vm_compute;
  repeat match goal with
         | |- Arr _ = Arr _ => apply f_equal
         | |- V _ _ _ = V _ _ _ => apply vec_ext
         | |- @eq Qc _ _ => apply Qc_is_canon; reflexivity
         end.

(** Refutes an equation between two closed numbers. *)
Ltac distinct_numbers :=
  let H := fresh in
  intro H; apply (f_equal this) in H; vm_compute in H; discriminate H.

(** ** Extents and centres *)

Section Extents.

Lemma include_point_covers_it (b : bounds) (p : vec) :
  covers (include_point b p) p.
Proof.
  unfold covers, include_point; cbn.
  repeat split; auto using min_le_first, max_ge_first.
Qed.

Lemma include_point_keeps (b : bounds) (p q : vec) :
  covers b q -> covers (include_point b p) q.
Proof.
  unfold covers, include_point; cbn.
  intros [[? ?] [[? ?] [? ?]]].
  repeat split;
    solve [ eapply Qcle_trans; [apply min_le_second | eassumption]
          | eapply Qcle_trans; [eassumption | apply max_ge_second] ].
Qed.

Lemma fold_include_keeps (pts : list vec) :
  forall b q, covers b q -> covers (fold_left include_point pts b) q.
Proof.
  induction pts as [|p pts IH]; intros b q H; cbn; auto.
  apply IH. now apply include_point_keeps.
Qed.

Lemma fold_include_covers (pts : list vec) :
  forall b p, In p pts -> covers (fold_left include_point pts b) p.
Proof.
  induction pts as [|p0 pts IH]; intros b p Hin; [destruct Hin|].
  cbn. destruct Hin as [-> | Hin].
  - apply fold_include_keeps, include_point_covers_it.
  - now apply IH.
Qed.

Lemma covers_well_formed (b : bounds) (p : vec) : covers b p -> well_formed b.
Proof.
  intros [[? ?] [[? ?] [? ?]]].
  repeat split; eapply Qcle_trans; eassumption.
Qed.

Lemma fold_include_shape (s : Scene) (shapes : list string) :
  forall b,
    fold_left (include_shape s) shapes b =
    fold_left include_point
      (flat_map (fun shape => match curve_cvs s shape with
                              | Some point_list => point_list
                              | None => []
                              end) shapes) b.
Proof.
  induction shapes as [|sh shapes IH]; intro b; [reflexivity|].
  cbn [flat_map fold_left]. rewrite fold_left_app, IH.
  unfold include_shape. now destruct (curve_cvs s sh).
Qed.

(** What a call of [get_bounds_of_anim_control_shapes] does. *)
Lemma get_bounds_run (s : Scene) (control : string) :
  get_bounds_of_anim_control_shapes control s =
  match shapes_under s control with
  | [] => (Raises Py.AssertionError, s)
  | sh => (Returns (extent s control), with_selected sh s)
  end.
Proof.
  unfold get_bounds_of_anim_control_shapes, bind, listRelatives_shapes, gets.
  unfold extent, sampled_points.
  destruct (shapes_under s control) as [|sh0 shs] eqn:E; [reflexivity|].
  cbn -[firstn List.length fold_left flat_map].
  rewrite firstn_all, fold_include_shape. reflexivity.
Qed.

(** C9. A call on a control with shapes returns an extent; that extent has
    min <= max on every axis as soon as one control vertex was sampled,
    and is the initial sentinel volume when none was.  (A control without
    shapes makes the call raise instead of returning.) *)
Theorem bounds_well_formed_once_sampled (s : Scene) (control : string) :
  (shapes_under s control = [] ->
   get_bounds_of_anim_control_shapes control s = (Raises Py.AssertionError, s)) /\
  (shapes_under s control <> [] ->
   exists b s',
     get_bounds_of_anim_control_shapes control s = (Returns b, s') /\
     (sampled_points s control <> [] -> well_formed b) /\
     (sampled_points s control = [] -> b = initial_bounds)).
Proof.
  rewrite get_bounds_run. split.
  - intros ->. reflexivity.
  - intro Hne. destruct (shapes_under s control) as [|sh0 shs] eqn:E;
      [now elim Hne|].
    exists (extent s control), (with_selected (sh0 :: shs) s).
    split; [reflexivity|]. unfold extent. split.
    + intro Hs. destruct (sampled_points s control) as [|p pts] eqn:Ep;
        [now elim Hs|].
      apply covers_well_formed with (p := p).
      apply fold_include_covers. now left.
    + intros ->. reflexivity.
Qed.

End Extents.

(** ** The framing computation *)

Section Framing.

(** One turn of the second loop. *)
Lemma collect_centre_points_step (i : string) (rest : list string)
      (acc : list vec) (s : Scene) :
  collect_centre_points (i :: rest) acc s =
  match shapes_under s i with
  | [] => collect_centre_points rest acc s
  | sh => collect_centre_points rest (acc ++ [centre_of (extent s i)])
                                (with_selected sh s)
  end.
Proof.
  cbn [collect_centre_points]. unfold bind at 1. unfold try_except.
  unfold bind at 1. rewrite get_bounds_run.
  destruct (shapes_under s i); reflexivity.
Qed.

(** The second loop only ever changes the selection, and gathers the
    centre of every control that has shapes. *)
Lemma collect_centre_points_run (todo : list string) :
  forall (acc : list vec) (s : Scene),
    collect_centre_points todo acc s =
    (Returns (acc ++ map (fun i => centre_of (extent s i))
                         (filter (has_shapes s) todo)),
     with_selected (selection_after (shapes_under s) todo (selected s)) s).
Proof.
  induction todo as [|i rest IH]; intros acc s.
  - cbn. rewrite app_nil_r. now destruct s.
  - rewrite collect_centre_points_step. cbn [filter selection_after].
    assert (Hi : has_shapes s i =
                 match shapes_under s i with [] => false | _ :: _ => true end)
      by reflexivity.
    rewrite Hi. clear Hi.
    destruct (shapes_under s i) as [|sh0 shs] eqn:E.
    + apply IH.
    + rewrite IH. cbn [map]. rewrite <- app_assoc. reflexivity.
Qed.

Lemma clean_targets_have_shapes (s : Scene) (targets : list string) :
  forall i, In i (snd (clean_targets s targets)) -> has_shapes s i = true.
Proof.
  induction targets as [|t rest IH]; intros i Hin; [destruct Hin|].
  cbn [clean_targets] in Hin.
  destruct (clean_targets s rest) as [shapes targets_] eqn:E.
  destruct (shapes_under s t) as [|sh0 shs] eqn:Et.
  - now apply IH.
  - cbn in Hin. destruct Hin as [<- | Hin].
    + unfold has_shapes. now rewrite Et.
    + now apply IH.
Qed.

Lemma remaining_targets_have_shapes (s : Scene) (targets : list string) :
  filter (has_shapes s) (remaining_targets s targets) =
  remaining_targets s targets.
Proof.
  apply forallb_filter_id. apply forallb_forall. intros i Hin.
  apply (clean_targets_have_shapes s targets).
  unfold remaining_targets, set_difference in Hin.
  apply nodup_In in Hin. apply filter_In in Hin. tauto.
Qed.

(** [framefit_animrig] always returns, and leaves the scene [framed]. *)
Lemma framefit_animrig_run (cam : string) (targets : list string)
      (zoom_amount : Qc) (s : Scene) :
  framefit_animrig cam targets zoom_amount s =
  (Returns tt, framed cam targets zoom_amount s).
Proof.
  unfold framefit_animrig, framed. unfold bind at 1. unfold gets at 1.
  pose proof (remaining_targets_have_shapes s targets) as Hf.
  unfold centre_points, remaining_targets in *. unfold after_view_fit.
  destruct (clean_targets s targets) as [shapes targets_] eqn:E.
  cbn [fst snd] in *.
  destruct targets_ as [|t0 ts]; [reflexivity|].
  unfold bind at 1. unfold select at 1. unfold modify at 1.
  unfold bind at 1. unfold viewFit at 1. unfold modify at 1.
  unfold bind at 1. unfold ls_invisible at 1. unfold gets at 1.
  unfold bind at 1.
  rewrite collect_centre_points_run.
  cbn [app].
  change (map (fun i => centre_of (extent _ i)) (filter (has_shapes _) ?l))
    with (map (fun i => centre_of (extent s i)) (filter (has_shapes s) l)).
  cbn [invisible_nodes shapes_under set_camera with_cameras with_selected].
  rewrite Hf.
  destruct (Py.eqb zoom_amount 0); reflexivity.
Qed.

End Framing.

(** ** The mean centroid *)

Section Centroid.

Lemma centre_is_midpoint (b : bounds) : centre_of b = midpoint b.
Proof.
  destruct b as [a b c d e f].
  unfold centre_of, get_centre_in_bounds, midpoint, vadd, vsub, vscale.
  cbn [vx vy vz min_x min_y min_z max_x max_y max_z].
  rewrite half_is_half.
  assert (H2 : two = 1 + 1) by (apply Qc_is_canon; reflexivity).
  pose proof two_neq_0 as Hn. rewrite H2 in *.
  f_equal; field; exact Hn.
Qed.

Lemma sum_by_axis (l : list vec) :
  vx (vsum l) = fold_right Qcplus 0 (map vx l) /\
  vy (vsum l) = fold_right Qcplus 0 (map vy l) /\
  vz (vsum l) = fold_right Qcplus 0 (map vz l).
Proof.
  unfold vsum.
  induction l as [|v l [Hx [Hy Hz]]]; [cbn; auto|].
  cbn [fold_right map]. unfold vadd at 1 3 5. cbn [vx vy vz].
  rewrite Hx, Hy, Hz. auto.
Qed.

Lemma mean_is_elementwise_average (v : vec) (l : list vec) :
  mean (v :: l) = Arr (elementwise_average (v :: l)).
Proof.
  unfold mean, elementwise_average, average, count.
  destruct (sum_by_axis (v :: l)) as [Hx [Hy Hz]].
  rewrite Hx, Hy, Hz, !length_map. reflexivity.
Qed.

(** C8, with the numbers read exactly (rounding left aside).  The centre
    [get_centre_in_bounds] computes for an extent is its
    elementwise (min + max) / 2; the mean over a non-empty collection of
    extents is the elementwise average of those centres; and this is the
    mean centroid [framefit_animrig] works with: its loop gathers the centre
    of each control handed to it, and the mean it takes is the elementwise
    average of the (min + max) / 2 of the remaining targets' extents. *)
Theorem centroid_is_average_of_midpoints :
  (forall a b c d e f : Qc,
      get_centre_in_bounds a b c d e f = midpoint (Bounds a b c d e f)) /\
  (forall (b0 : bounds) (bs : list bounds),
      mean (map centre_of (b0 :: bs)) =
      Arr (elementwise_average (map midpoint (b0 :: bs)))) /\
  (forall (s : Scene) (todo : list string),
      Forall (fun i => shapes_under s i <> []) todo ->
      fst (collect_centre_points todo [] s) =
      Returns (map (fun i => midpoint (extent s i)) todo)) /\
  (forall (s : Scene) (targets : list string),
      remaining_targets s targets <> [] ->
      mean (centre_points s targets) =
      Arr (elementwise_average
             (map (fun i => midpoint (extent s i))
                  (remaining_targets s targets)))).
Proof.
  split; [|split; [|split]].
  - intros. apply (centre_is_midpoint (Bounds a b c d e f)).
  - intros b0 bs.
    rewrite (map_ext centre_of midpoint centre_is_midpoint).
    apply mean_is_elementwise_average.
  - intros s todo Hall. rewrite collect_centre_points_run. cbn [fst app].
    rewrite forallb_filter_id.
    + f_equal. apply map_ext. intro i. apply centre_is_midpoint.
    + apply forallb_forall. intros i Hin.
      rewrite Forall_forall in Hall. specialize (Hall i Hin).
      unfold has_shapes. destruct (shapes_under s i); [now elim Hall|reflexivity].
  - intros s targets Hne. unfold centre_points.
    rewrite (map_ext (fun i => centre_of (extent s i))
                     (fun i => midpoint (extent s i)))
      by (intro i; apply centre_is_midpoint).
    destruct (remaining_targets s targets) as [|t0 ts]; [now elim Hne|].
    cbn [map]. apply mean_is_elementwise_average.
Qed.

End Centroid.

(** ** Where the camera ends up *)

Section CameraMove.

Lemma clamp_0 : clamp 0 = 0.
Proof. reflexivity. Qed.

Lemma clamp_below (f : Qc) : f < 0 -> clamp f = 0.
Proof.
  intro Hf. unfold clamp, Py.min, Py.max.
  assert (H1 : (1 ?= f) = Gt).
  { apply Qcgt_alt. eapply Qclt_trans; [exact Hf | reflexivity]. }
  rewrite H1.
  assert (H0 : (f ?= 0) = Lt) by now apply Qclt_alt.
  now rewrite H0.
Qed.

Lemma clamp_above (f : Qc) : 1 < f -> clamp f = 1.
Proof.
  intro Hf. unfold clamp, Py.min, Py.max.
  assert (H1 : (1 ?= f) = Lt) by now apply Qclt_alt.
  rewrite H1. reflexivity.
Qed.

Lemma stay_put (p c : vec) : vadd p (vscale (vsub c p) 0) = p.
Proof.
  destruct p, c. unfold vadd, vscale, vsub. cbn [vx vy vz].
  apply vec_ext; ring.
Qed.

Lemma camera_after_set (cam : string) (c : camera) (s : Scene) :
  cameras (set_camera cam c s) cam = c.
Proof. cbn. now rewrite String.eqb_refl. Qed.

Lemma camera_after_select (cam : string) (l : list string) (s : Scene) :
  cameras (with_selected l s) cam = cameras s cam.
Proof. reflexivity. Qed.

Lemma no_targets_no_centres (s : Scene) (targets : list string) :
  snd (clean_targets s targets) = [] -> centre_points s targets = [].
Proof.
  unfold centre_points, remaining_targets. now intros ->.
Qed.

Lemma clamp_clamped (f : Qc) : clamp f = clamped f.
Proof.
  unfold clamped. destruct (f ?= 0) eqn:E0.
  - apply Qceq_alt in E0. subst f. reflexivity.
  - apply clamp_below. now apply Qclt_alt.
  - destruct (f ?= 1) eqn:E1.
    + apply Qceq_alt in E1. subst f. reflexivity.
    + unfold clamp, Py.min, Py.max.
      assert (H1 : (1 ?= f) = Gt) by (apply Qcgt_alt; now apply Qclt_alt).
      now rewrite H1, E0.
    + apply clamp_above. now apply Qcgt_alt in E1.
Qed.

(** C1, as the code has it.  With a non-empty collection of centre points
    of mean [c], and [p] the camera position the operation reads back
    before moving (the one the preliminary [viewFit] leaves), the camera
    ends at [p + (c - p) * k], where [k] is 0 for a fraction below 0, 1 for
    a fraction above 1 and the fraction itself in between. *)
Theorem camera_ends_on_clamped_fraction
        (s : Scene) (cam : string) (targets : list string) (f : Qc)
        (p c : vec) :
  centre_points s targets <> [] ->
  mean (centre_points s targets) = Arr c ->
  translate (cameras (after_view_fit cam targets s) cam) = Arr p ->
  translate (cameras (snd (framefit_animrig cam targets f s)) cam) =
  Arr (vadd p (vscale (vsub c p) (clamped f))).
Proof.
  intros Hne Hc Hp. rewrite <- clamp_clamped.
  rewrite framefit_animrig_run. cbn [snd].
  unfold framed.
  destruct (snd (clean_targets s targets)) as [|t0 ts] eqn:E.
  - elim Hne. now apply no_targets_no_centres.
  - cbv zeta. destruct (Py.eqb f 0) eqn:Ef.
    + apply eqb_true in Ef. subst f.
      rewrite camera_after_select, Hp, clamp_0, stay_put. reflexivity.
    + rewrite !camera_after_set. cbn [translate].
      rewrite camera_after_select, Hp, Hc. reflexivity.
Qed.

(** The example of the claim, on a host whose [viewFit] leaves the camera
    where it is: extents (0,0,0,2,2,2) and (4,4,4,6,6,6) average to
    (3,3,3); a camera at (3,3,-7) with fraction 1/2 ends at (3,3,-2). *)
Lemma camera_ends_on_clamped_fraction_example :
  let s := Demo.rig [] Demo.keep_camera
                    (Camera (Arr (Demo.pt 3 3 (-7))) (Py.of_int 10)) in
  map (fun i => bounds_list (extent s i)) Demo.both =
    [map Py.of_int [0; 0; 0; 2; 2; 2]%Z; map Py.of_int [4; 4; 4; 6; 6; 6]%Z] /\
  mean (centre_points s Demo.both) = Arr (Demo.pt 3 3 3) /\
  translate (cameras (snd (framefit_animrig "persp" Demo.both (Q2Qc (1 # 2)) s))
                     "persp") = Arr (Demo.pt 3 3 (-2)).
Proof.
  intro s.
  assert (Hc : mean (centre_points s Demo.both) = Arr (Demo.pt 3 3 3))
    by same_point.
  split; [|split; [exact Hc|]].
  - vm_compute. repeat (apply f_equal2; [apply Qc_is_canon; reflexivity|]).
    reflexivity.
  - rewrite (camera_ends_on_clamped_fraction s "persp" Demo.both (Q2Qc (1 # 2))
               (Demo.pt 3 3 (-7)) (Demo.pt 3 3 3)).
    + same_point.
    + discriminate.
    + exact Hc.
    + reflexivity.
Defined.

(** C1, as the claim has it, fails on a host whose [viewFit] moves the
    camera: the same extents, camera and fraction, but a [viewFit] that
    frames the selection from (0,0,10).  The camera was at (3,3,-7) when
    the call was made and the mean centroid is (3,3,3), yet the camera ends
    at (3/2, 3/2, 13/2), half way from (0,0,10), and not at (3,3,-2). *)
Lemma camera_does_not_start_from_position_at_entry :
  let s := Demo.rig [] Demo.frame_from_front
                    (Camera (Arr (Demo.pt 3 3 (-7))) (Py.of_int 10)) in
  let f := Q2Qc (1 # 2) in
  let p := Demo.pt 3 3 (-7) in
  let c := Demo.pt 3 3 3 in
  let after := snd (framefit_animrig "persp" Demo.both f s) in
  translate (cameras s "persp") = Arr p /\
  centre_points s Demo.both <> [] /\
  mean (centre_points s Demo.both) = Arr c /\
  vadd p (vscale (vsub c p) (clamped f)) = Demo.pt 3 3 (-2) /\
  translate (cameras after "persp") =
    Arr (V (Q2Qc (3 # 2)) (Q2Qc (3 # 2)) (Q2Qc (13 # 2))) /\
  translate (cameras after "persp") <>
    Arr (vadd p (vscale (vsub c p) (clamped f))).
Proof.
  cbv zeta. split; [|split; [|split; [|split; [|split]]]].
  - reflexivity.
  - discriminate.
  - same_point.
  - same_point.
  - same_point.
  - intro H. apply (f_equal (fun a => match a with
                                      | Arr v => this (vx v)
                                      | NaNs => 0%Q
                                      end)) in H.
    vm_compute in H. discriminate H.
Qed.

(** On a host whose [viewFit] leaves the camera's position as it finds
    it, [p] is the position the camera had when the call was made. *)
Lemma camera_ends_on_clamped_fraction_when_fit_keeps
      (s : Scene) (cam : string) (targets : list string) (f : Qc)
      (p c : vec) :
  (forall sel, translate (fit s cam sel (cameras s cam)) =
               translate (cameras s cam)) ->
  centre_points s targets <> [] ->
  mean (centre_points s targets) = Arr c ->
  translate (cameras s cam) = Arr p ->
  translate (cameras (snd (framefit_animrig cam targets f s)) cam) =
  Arr (vadd p (vscale (vsub c p) (clamped f))).
Proof.
  intros Hkeep Hne Hc Hp. rewrite <- clamp_clamped.
  assert (Hfit : translate (cameras (after_view_fit cam targets s) cam) = Arr p).
  { unfold after_view_fit. cbv zeta. rewrite camera_after_set.
    cbn [fit selected cameras with_selected]. now rewrite Hkeep. }
  rewrite framefit_animrig_run. cbn [snd]. unfold framed.
  destruct (snd (clean_targets s targets)) as [|t0 ts] eqn:E.
  - elim Hne. now apply no_targets_no_centres.
  - cbv zeta. destruct (Py.eqb f 0) eqn:Ef.
    + apply eqb_true in Ef. subst f.
      rewrite camera_after_select, Hfit, clamp_0, stay_put. reflexivity.
    + rewrite !camera_after_set. cbn [translate].
      rewrite camera_after_select, Hfit, Hc. reflexivity.
Qed.

End CameraMove.

(** ** The centre of interest *)

Section CentreOfInterest.

Lemma clamped_nonzero (f : Qc) : clamped f <> 0 -> f <> 0.
Proof. intros H ->. now apply H. Qed.

(** In the scene, over exact numbers: when some target has shapes and the
    clamped fraction is not 0, the attribute ends as [int(d * (1 - delta))],
    [d] being the value read back after the preliminary [viewFit]. *)
Lemma centre_of_interest_in_scene
      (s : Scene) (cam : string) (targets : list string) (f : Qc) :
  snd (clean_targets s targets) <> [] ->
  clamped f <> 0 ->
  centerOfInterest (cameras (snd (framefit_animrig cam targets f s)) cam) =
  Py.of_int
    (Py.int (centerOfInterest (cameras (after_view_fit cam targets s) cam)
             * (1 - clamped f))).
Proof.
  intros Hts Hd. apply clamped_nonzero in Hd. rewrite <- clamp_clamped.
  rewrite framefit_animrig_run. cbn [snd]. unfold framed.
  destruct (snd (clean_targets s targets)) as [|t0 ts]; [now elim Hts|].
  cbv zeta. destruct (Py.eqb f 0) eqn:Ef;
    [apply eqb_true in Ef; now elim Hd|].
  rewrite !camera_after_set. cbn [centerOfInterest]. reflexivity.
Qed.

End CentreOfInterest.

(** ** When no target is left *)

Section NothingToFrame.

(** Targets without shapes only: nothing is touched. *)
Lemma no_shapes_no_op (s : Scene) (cam : string) (targets : list string)
      (f : Qc) :
  snd (clean_targets s targets) = [] ->
  framefit_animrig cam targets f s = (Returns tt, s).
Proof.
  intro H. rewrite framefit_animrig_run. unfold framed. now rewrite H.
Qed.

(** Targets with shapes that are all invisible, and a fraction other than
    0: the mean of no centre point is [nan], and that is what the camera
    position is set to. *)
Lemma hidden_targets_position_is_nan
      (s : Scene) (cam : string) (targets : list string) (f : Qc) :
  snd (clean_targets s targets) <> [] ->
  remaining_targets s targets = [] ->
  Py.eqb f 0 = false ->
  translate (cameras (snd (framefit_animrig cam targets f s)) cam) = NaNs.
Proof.
  intros Hts Hnone Hf. rewrite framefit_animrig_run. cbn [snd].
  unfold framed, centre_points. rewrite Hnone, Hf.
  destruct (snd (clean_targets s targets)); [now elim Hts|].
  cbv zeta. rewrite !camera_after_set. cbn [translate map mean sub scale].
  now destruct (translate _).
Qed.

(** C3 at a failing input.  Both targets have a curve and both are listed
    as invisible, so no target is left; the host's [viewFit] keeps the
    camera in place.  With fraction 1/4 the call returns, having written
    a position that is [nan] throughout and a centre of interest of 7 in
    place of 10. *)
Theorem hidden_targets_camera_written :
  let s := Demo.rig Demo.both Demo.keep_camera
                    (Camera (Arr (Demo.pt 3 3 (-7))) (Py.of_int 10)) in
  let result := framefit_animrig "persp" Demo.both (Q2Qc (1 # 4)) s in
  remaining_targets s Demo.both = [] /\
  cameras s "persp" = Camera (Arr (Demo.pt 3 3 (-7))) (Py.of_int 10) /\
  fst result = Returns tt /\
  translate (cameras (snd result) "persp") = NaNs /\
  centerOfInterest (cameras (snd result) "persp") = Py.of_int 7.
Proof.
  cbv zeta. rewrite framefit_animrig_run. cbn [fst snd].
  split; [|split; [|split; [|split]]]; try reflexivity; same_point.
Qed.

End NothingToFrame.

(** ** Calling again, and fractions outside [0, 1] *)

Section Repeated.

Lemma camera_elsewhere (cam n : string) (c : camera) (s : Scene) :
  n <> cam -> cameras (set_camera cam c s) n = cameras s n.
Proof.
  intro H. cbn. apply String.eqb_neq in H. now rewrite H.
Qed.

Lemma mean_of_some (l : list vec) : l <> [] -> exists c, mean l = Arr c.
Proof.
  destruct l as [|v l]; [now intros []|]. intros _. eexists. reflexivity.
Qed.

(** A call with fraction 0 on a scene where some target has shapes stops
    right after the second loop. *)
Lemma framed_zero (s : Scene) (cam : string) (targets : list string) :
  snd (clean_targets s targets) <> [] ->
  framed cam targets 0 s =
  with_selected
    (selection_after (shapes_under s) (remaining_targets s targets)
                     (selected (after_view_fit cam targets s)))
    (after_view_fit cam targets s).
Proof.
  intro H. unfold framed.
  destruct (snd (clean_targets s targets)); [now elim H|].
  cbv zeta. now rewrite eqb_refl.
Qed.

(** C5, as the code has it.  A second call with fraction 0 writes no
    position of its own.  Where no target has shapes it leaves the scene
    as it was; otherwise it leaves the camera as its preliminary
    [viewFit] places it, so the position is the one after the first call
    whenever that [viewFit] does not move the camera. *)
Theorem second_call_with_zero_stops_after_view_fit
        (s0 : Scene) (cam : string) (targets : list string) (f1 : Qc) :
  let s1 := snd (framefit_animrig cam targets f1 s0) in
  let s2 := snd (framefit_animrig cam targets 0 s1) in
  (snd (clean_targets s1 targets) = [] -> s2 = s1) /\
  (snd (clean_targets s1 targets) <> [] ->
   cameras s2 cam = cameras (after_view_fit cam targets s1) cam) /\
  (translate (cameras (after_view_fit cam targets s1) cam) =
   translate (cameras s1 cam) ->
   translate (cameras s2 cam) = translate (cameras s1 cam)).
Proof.
  intros s1 s2. subst s2. generalize s1. clear s1 s0 f1. intro s.
  assert (Hnone : snd (clean_targets s targets) = [] ->
                  snd (framefit_animrig cam targets 0 s) = s).
  { intro H. now rewrite no_shapes_no_op. }
  assert (Hsome : snd (clean_targets s targets) <> [] ->
                  cameras (snd (framefit_animrig cam targets 0 s)) cam =
                  cameras (after_view_fit cam targets s) cam).
  { intro H. rewrite framefit_animrig_run. cbn [snd].
    rewrite framed_zero by exact H. apply camera_after_select. }
  split; [exact Hnone | split; [exact Hsome|]].
  intro Hkeep.
  destruct (snd (clean_targets s targets)) as [|t0 ts] eqn:E.
  - now rewrite Hnone.
  - rewrite Hsome by discriminate. exact Hkeep.
Qed.

(** C5, as the claim has it, fails on a host whose [viewFit] frames the
    selection from a place of its own: the first call (fraction 1/4)
    leaves the camera at (3/4, 3/4, 33/4), the second (fraction 0) at
    (0, 0, 10). *)
Lemma second_call_with_zero_moves_camera :
  let s0 := Demo.rig [] Demo.frame_from_front
                     (Camera (Arr (Demo.pt 3 3 (-7))) (Py.of_int 10)) in
  let s1 := snd (framefit_animrig "persp" Demo.both (Q2Qc (1 # 4)) s0) in
  let s2 := snd (framefit_animrig "persp" Demo.both 0 s1) in
  translate (cameras s1 "persp") =
    Arr (V (Q2Qc (3 # 4)) (Q2Qc (3 # 4)) (Q2Qc (33 # 4))) /\
  translate (cameras s2 "persp") = Arr (Demo.pt 0 0 10) /\
  translate (cameras s2 "persp") <> translate (cameras s1 "persp").
Proof.
  cbv zeta.
  assert (H1 : translate
                 (cameras (snd (framefit_animrig "persp" Demo.both (Q2Qc (1 # 4))
                    (Demo.rig [] Demo.frame_from_front
                       (Camera (Arr (Demo.pt 3 3 (-7))) (Py.of_int 10)))))
                    "persp") =
               Arr (V (Q2Qc (3 # 4)) (Q2Qc (3 # 4)) (Q2Qc (33 # 4))))
    by same_point.
  assert (H2 : translate
                 (cameras (snd (framefit_animrig "persp" Demo.both 0
                    (snd (framefit_animrig "persp" Demo.both (Q2Qc (1 # 4))
                       (Demo.rig [] Demo.frame_from_front
                          (Camera (Arr (Demo.pt 3 3 (-7))) (Py.of_int 10)))))))
                    "persp") =
               Arr (Demo.pt 0 0 10))
    by same_point.
  split; [exact H1 | split; [exact H2|]].
  rewrite H1, H2. intro H.
  apply (f_equal (fun a => match a with
                           | Arr v => this (vx v)
                           | NaNs => this 0
                           end)) in H.
  vm_compute in H. discriminate H.
Qed.

(** C6, as the code has it.  A fraction above 1 does exactly what 1 does.
    A fraction below 0 does exactly what 0 does when no target has shapes;
    when centre points were gathered it leaves the position and everything
    but the camera as 0 does, and rewrites the centre of interest as its
    integer part. *)
Theorem out_of_range_fractions
        (s : Scene) (cam : string) (targets : list string) (f : Qc) :
  (1 < f ->
   framefit_animrig cam targets f s = framefit_animrig cam targets 1 s) /\
  (f < 0 -> snd (clean_targets s targets) = [] ->
   framefit_animrig cam targets f s = framefit_animrig cam targets 0 s) /\
  (f < 0 -> centre_points s targets <> [] ->
   let sf := snd (framefit_animrig cam targets f s) in
   let s0 := snd (framefit_animrig cam targets 0 s) in
   fst (framefit_animrig cam targets f s) =
   fst (framefit_animrig cam targets 0 s) /\
   same_but_cameras sf s0 /\
   (forall n, n <> cam -> cameras sf n = cameras s0 n) /\
   translate (cameras sf cam) = translate (cameras s0 cam) /\
   centerOfInterest (cameras sf cam) =
   Py.of_int (Py.int (centerOfInterest (cameras s0 cam)))).
Proof.
  split; [|split].
  - intro Hf. rewrite !framefit_animrig_run. f_equal. unfold framed.
    destruct (snd (clean_targets s targets)); [reflexivity|]. cbv zeta.
    assert (E : Py.eqb f 0 = false).
    { unfold Py.eqb.
      assert (H : (f ?= 0) = Gt).
      { apply Qcgt_alt. eapply Qclt_trans; [|exact Hf]. reflexivity. }
      now rewrite H. }
    rewrite E, clamp_above by exact Hf. reflexivity.
  - intros _ H. now rewrite !no_shapes_no_op.
  - intros Hf Hne. cbv zeta. rewrite !framefit_animrig_run. cbn [fst snd].
    assert (Hts : snd (clean_targets s targets) <> []).
    { intro H. now apply Hne, no_targets_no_centres. }
    rewrite framed_zero by exact Hts.
    unfold framed.
    destruct (snd (clean_targets s targets)) as [|t0 ts]; [now elim Hts|].
    cbv zeta.
    assert (E : Py.eqb f 0 = false).
    { unfold Py.eqb. assert (H : (f ?= 0) = Lt) by now apply Qclt_alt.
      now rewrite H. }
    rewrite E, clamp_below by exact Hf.
    set (s2 := with_selected _ (after_view_fit cam targets s)).
    destruct (mean_of_some _ Hne) as [c Hc]. rewrite Hc.
    split; [reflexivity|]. split; [|split; [|split]].
    + repeat split.
    + intros n Hn. now rewrite !camera_elsewhere.
    + rewrite !camera_after_set. cbn [translate].
      destruct (translate (cameras s2 cam)) as [p|]; [|reflexivity].
      cbn [sub scale add]. now rewrite stay_put.
    + rewrite !camera_after_set. cbn [centerOfInterest].
      do 2 f_equal. ring.
Qed.

(** C6, as the claim has it, fails below 0: with a centre of interest of
    15/2, fraction -1 leaves 7 where fraction 0 leaves 15/2. *)
Lemma negative_fraction_is_not_zero_fraction :
  let s := Demo.rig [] Demo.keep_camera
                    (Camera (Arr (Demo.pt 3 3 (-7))) (Q2Qc (15 # 2))) in
  let minus_one := Py.of_int (-1) in
  minus_one < 0 /\
  centerOfInterest
    (cameras (snd (framefit_animrig "persp" Demo.both minus_one s)) "persp")
    = Py.of_int 7 /\
  centerOfInterest
    (cameras (snd (framefit_animrig "persp" Demo.both 0 s)) "persp")
    = Q2Qc (15 # 2) /\
  framefit_animrig "persp" Demo.both minus_one s <>
  framefit_animrig "persp" Demo.both 0 s.
Proof.
  cbv zeta.
  assert (Hm : centerOfInterest
                 (cameras (snd (framefit_animrig "persp" Demo.both (Py.of_int (-1))
                    (Demo.rig [] Demo.keep_camera
                       (Camera (Arr (Demo.pt 3 3 (-7))) (Q2Qc (15 # 2))))))
                    "persp") = Py.of_int 7) by same_point.
  assert (H0 : centerOfInterest
                 (cameras (snd (framefit_animrig "persp" Demo.both 0
                    (Demo.rig [] Demo.keep_camera
                       (Camera (Arr (Demo.pt 3 3 (-7))) (Q2Qc (15 # 2))))))
                    "persp") = Q2Qc (15 # 2)) by same_point.
  split; [reflexivity | split; [exact Hm | split; [exact H0|]]].
  intro H. rewrite H in Hm. rewrite Hm in H0. revert H0. distinct_numbers.
Qed.

End Repeated.

(** ** A control from which nothing is sampled *)

Section Unsampled.

(** C10. A control with shapes but no sampled control vertex gets the
    inverted sentinel extent, without an exception; the centre of that
    extent is the origin; and the second loop of [framefit_animrig] appends
    that origin to the centre points it averages instead of skipping the
    control. *)
Theorem unsampled_control_counts_as_origin (s : Scene) (control : string) :
  shapes_under s control <> [] ->
  sampled_points s control = [] ->
  get_bounds_of_anim_control_shapes control s =
    (Returns initial_bounds, with_selected (shapes_under s control) s) /\
  bounds_list initial_bounds =
    map Py.of_int [9999999; 9999999; 9999999;
                   -9999999; -9999999; -9999999]%Z /\
  centre_of initial_bounds = V 0 0 0 /\
  (forall rest acc,
      collect_centre_points (control :: rest) acc s =
      collect_centre_points rest (acc ++ [V 0 0 0])
                            (with_selected (shapes_under s control) s)) /\
  (forall targets,
      In control (remaining_targets s targets) ->
      In (V 0 0 0) (centre_points s targets)).
Proof.
  intros Hsh Hnone.
  assert (Hext : extent s control = initial_bounds).
  { unfold extent. now rewrite Hnone. }
  assert (Horigin : centre_of initial_bounds = V 0 0 0) by same_point.
  split; [|split; [|split; [|split]]].
  - rewrite get_bounds_run, Hext.
    destruct (shapes_under s control); [now elim Hsh | reflexivity].
  - reflexivity.
  - exact Horigin.
  - intros rest acc. rewrite collect_centre_points_step, Hext, Horigin.
    destruct (shapes_under s control); [now elim Hsh | reflexivity].
  - intros targets Hin. unfold centre_points.
    rewrite <- Horigin, <- Hext.
    apply (in_map (fun i => centre_of (extent s i))). exact Hin.
Qed.

(** On the demo rig: [pin_anim] carries a mesh only; framing [box_anim]
    (centre (1,1,1)) and [pin_anim] with fraction 1 takes the camera to
    (1/2, 1/2, 1/2), the mean of (1,1,1) and the origin. *)
Lemma unsampled_control_counts_as_origin_example :
  let s := Demo.rig [] Demo.keep_camera
                    (Camera (Arr (Demo.pt 3 3 (-7))) (Py.of_int 10)) in
  In (V 0 0 0) (centre_points s ["box_anim"; "pin_anim"]%string) /\
  translate
    (cameras (snd (framefit_animrig "persp" ["box_anim"; "pin_anim"]%string 1 s))
             "persp")
  = Arr (V (Q2Qc (1 # 2)) (Q2Qc (1 # 2)) (Q2Qc (1 # 2))).
Proof.
  intro s. split.
  - apply (unsampled_control_counts_as_origin s "pin_anim"%string).
    + discriminate.
    + reflexivity.
    + right. left. reflexivity.
  - same_point.
Defined.

End Unsampled.

(** ** The entry point *)

Section EntryPoint.

Variable framing : string -> list string -> Qc -> M unit.

Lemma resolve_camera_run (target_camera : option string) (s : Scene) :
  (match target_camera with
   | Some c =>
       if String.eqb c EmptyString
       then try_except modelEditor_camera
              (fun e => match e with Py.RuntimeError => true | _ => false end)
              (fun _ => ret "persp"%string)
       else ret c
   | None =>
       try_except modelEditor_camera
         (fun e => match e with Py.RuntimeError => true | _ => false end)
         (fun _ => ret "persp"%string)
   end) s = (Returns (resolved_camera target_camera s), s).
Proof.
  unfold resolved_camera, try_except, modelEditor_camera, ret.
  destruct target_camera as [c|];
    [destruct (String.eqb c EmptyString)|];
    destruct (panel_camera s); reflexivity.
Qed.

(** The guarded body: open a chunk, pick the targets, call the framing. *)
Lemma guarded_body_run (cam : string) (s : Scene) :
  (undoInfo_openChunk ;;;
   picked <- ls_selection_of_type ;;
   targets <- match picked with
              | [] => get_all_rig_controls
              | _ :: _ => ret picked
              end ;;
   framing cam targets (Q2Qc (1 # 4))) s
  = framing cam (resolved_targets s) (Q2Qc (1 # 4)) (chunk_opened s).
Proof.
  unfold bind, undoInfo_openChunk, modify, ls_selection_of_type, gets.
  unfold resolved_targets.
  change (filter (is_transform_or_joint (with_open_chunks _ s))
                 (selected (with_open_chunks _ s)))
    with (filter (is_transform_or_joint s) (selected s)).
  destruct (filter (is_transform_or_joint s) (selected s)); reflexivity.
Qed.

(** What a call of the entry point comes to. *)
Lemma entry_point_run (target_camera : option string) (s : Scene) :
  current_panel_to_selected_calling framing target_camera s =
  match framing (resolved_camera target_camera s) (resolved_targets s)
                (Q2Qc (1 # 4)) (chunk_opened s) with
  | (Returns _, s') =>
      (Returns tt, with_selected (selected s)
                     (with_open_chunks (Nat.pred (open_chunks s')) s'))
  | (Raises e, s') =>
      if Py.isinstance_Exception e
      then (Returns tt,
            with_selected (selected s)
              (with_open_chunks (Nat.pred (open_chunks s'))
                 (with_tracebacks (tracebacks s' ++ [e]) s')))
      else (Raises e,
            with_selected (selected s)
              (with_open_chunks (Nat.pred (open_chunks s')) s'))
  end.
Proof.
  unfold current_panel_to_selected_calling.
  unfold bind at 1. rewrite resolve_camera_run.
  unfold bind at 1. unfold ls_selection at 1. unfold gets at 1.
  unfold try_finally, try_except. rewrite guarded_body_run.
  destruct (framing (resolved_camera target_camera s) (resolved_targets s)
                    (Q2Qc (1 # 4)) (chunk_opened s)) as [[u|e] s'].
  - destruct u. reflexivity.
  - destruct (Py.isinstance_Exception e); reflexivity.
Qed.

(** C7, as the code has it.  Whatever the framing computation does, the
    entry point ends with the selection it started with and with one undo
    chunk fewer open than the framing computation left (so with as many as
    it started with, when the framing computation leaves the chunk count
    alone); it returns normally when the framing computation returns or
    raises an instance of [Exception], and lets any other exception
    through once the clean-up is done. *)
Theorem entry_point_cleans_up (target_camera : option string) (s : Scene) :
  let inner := framing (resolved_camera target_camera s) (resolved_targets s)
                       (Q2Qc (1 # 4)) (chunk_opened s) in
  let result := current_panel_to_selected_calling framing target_camera s in
  selected (snd result) = selected s /\
  open_chunks (snd result) = Nat.pred (open_chunks (snd inner)) /\
  (open_chunks (snd inner) = open_chunks (chunk_opened s) ->
   open_chunks (snd result) = open_chunks s) /\
  fst result =
    match fst inner with
    | Returns _ => Returns tt
    | Raises e => if Py.isinstance_Exception e then Returns tt else Raises e
    end.
Proof.
  intros inner result. subst result. rewrite entry_point_run. fold inner.
  destruct inner as [[u|e] s']; cbn [fst snd].
  - repeat split. intros ->. reflexivity.
  - destruct (Py.isinstance_Exception e); cbn [fst snd];
      (repeat split; intros ->; reflexivity).
Qed.

End EntryPoint.

Section EntryPointRuns.

Lemma framed_keeps_chunks (cam : string) (targets : list string) (f : Qc)
      (s : Scene) :
  open_chunks (framed cam targets f s) = open_chunks s.
Proof.
  unfold framed. destruct (snd (clean_targets s targets)); [reflexivity|].
  cbv zeta. destruct (Py.eqb f 0); reflexivity.
Qed.

(** With [framefit_animrig] itself as the framing computation the entry
    point returns, with the selection and the undo chunk count it
    started from. *)
Lemma framefit_animrig_current_panel_to_selected_run
      (target_camera : option string) (s : Scene) :
  let result := framefit_animrig_current_panel_to_selected target_camera s in
  fst result = Returns tt /\
  selected (snd result) = selected s /\
  open_chunks (snd result) = open_chunks s.
Proof.
  cbv zeta. unfold framefit_animrig_current_panel_to_selected.
  rewrite entry_point_run, framefit_animrig_run. cbn [fst snd].
  split; [reflexivity | split; [reflexivity|]].
  cbn [open_chunks with_selected with_open_chunks].
  now rewrite framed_keeps_chunks.
Qed.

(** C7, as the claim has it, fails: a framing computation interrupted from
    the keyboard is cleaned up after, and the interrupt reaches the
    caller. *)
Lemma keyboard_interrupt_reaches_caller :
  let s := Demo.rig [] Demo.keep_camera
                    (Camera (Arr (Demo.pt 3 3 (-7))) (Py.of_int 10)) in
  let result := current_panel_to_selected_calling Demo.interrupted None s in
  fst result = Raises Py.KeyboardInterrupt /\
  selected (snd result) = selected s /\
  open_chunks (snd result) = open_chunks s.
Proof. cbv zeta. repeat split. Qed.

(** An instance of [Exception] is swallowed and reported, and the
    selection the framing computation had changed is put back. *)
Lemma runtime_error_is_swallowed :
  let s := Demo.rig [] Demo.keep_camera
                    (Camera (Arr (Demo.pt 3 3 (-7))) (Py.of_int 10)) in
  let result := current_panel_to_selected_calling Demo.failing None s in
  fst result = Returns tt /\
  selected (snd result) = selected s /\
  open_chunks (snd result) = open_chunks s /\
  tracebacks (snd result) = [Py.RuntimeError].
Proof. cbv zeta. repeat split. Qed.

End EntryPointRuns.

(** ** The launcher's wait and report *)

Section Launcher.

Import Headless.
Open Scope string_scope.

Lemma filter_permutation {A} (f : A -> bool) (l l' : list A) :
  Permutation l l' -> Permutation (filter f l) (filter f l').
Proof.
  induction 1 as [|x l l' _ IH|x y l|l l' l'' _ IH1 _ IH2]; cbn.
  - constructor.
  - destruct (f x); [now constructor | exact IH].
  - destruct (f x), (f y); try apply Permutation_refl.
    apply perm_swap.
  - eapply perm_trans; eassumption.
Qed.

(** The shared lists once the threads in [finished] have run on top of
    [sh]. *)
Lemma threads_append (finished : list (Popen * Path)) :
  forall sh,
    fold_left (fun sh i => run_create_anim_threaded (fst i) (snd i) sh)
              finished sh =
    mkShared
      (List.app (success sh)
                (map (fun i => ("Success", snd i)) (filter read_ok finished)))
      (List.app (errors sh)
                (map (fun i => (err (fst i), snd i))
                     (filter read_badly finished))).
Proof.
  induction finished as [|i rest IH]; intro sh.
  - cbn. rewrite !app_nil_r. now destruct sh.
  - cbn [fold_left filter]. rewrite IH.
    unfold run_create_anim_threaded, read_ok, read_badly, exited_badly,
      exited_ok.
    destruct (decodes (fst i)); cbn [negb andb]; [|reflexivity].
    destruct (Z.eqb (returncode (fst i)) 0); cbn [success errors negb map];
      now rewrite <- app_assoc.
Qed.

Lemma join_all_lists (finished : list (Popen * Path)) :
  join_all finished =
  mkShared (map (fun i => ("Success", snd i)) (filter read_ok finished))
           (map (fun i => (err (fst i), snd i)) (filter read_badly finished)).
Proof. unfold join_all. now rewrite threads_append. Qed.

(** Whatever the order [finished] in which the workers of a batch are
    found to have exited: every worker whose output was read and that
    exited with code 0, and no other, gets its success line; the error
    text of every worker whose output was read and that exited with
    another code is printed; and an [AssertionError] is raised exactly when
    there is such a worker, its message listing the name of the output
    path of each of them and of no other. *)
Lemma launcher_reports_every_read_job (processes finished : list (Popen * Path)) :
  Permutation finished processes ->
  let r := anim_rig_generator finished in
  let succeeded := filter read_ok finished in
  let failed := filter read_badly finished in
  Permutation succeeded (filter read_ok processes) /\
  Permutation failed (filter read_badly processes) /\
  printed r =
    List.app (map (fun i => "CreateAnim: " ++ str (snd i)) succeeded)
             (map (fun i => err (fst i)) failed) /\
  raised r =
    match failed with
    | [] => None
    | _ :: _ =>
        Some ("Failed Files: " ++ Py.join ", " (map (fun i => name (snd i)) failed))
    end /\
  (raised r <> None <->
   exists i, In i processes /\ decodes (fst i) = true /\
             returncode (fst i) <> 0%Z).
Proof.
  intros Hperm r succeeded failed.
  assert (Hr : r = mkReport
                 (List.app
                    (map (fun i => "CreateAnim: " ++ str (snd i)) succeeded)
                    (map (fun i => err (fst i)) failed))
                 (match failed with
                  | [] => None
                  | _ :: _ =>
                      Some ("Failed Files: "
                            ++ Py.join ", " (map (fun i => name (snd i)) failed))
                  end)).
  { subst r. unfold anim_rig_generator. rewrite join_all_lists.
    unfold summarise. cbn [success errors]. fold succeeded failed.
    rewrite !map_map. cbn [fst snd].
    destruct failed; reflexivity. }
  split; [now apply filter_permutation|].
  split; [now apply filter_permutation|].
  rewrite Hr. cbn [printed raised].
  split; [reflexivity | split; [reflexivity|]].
  split.
  - intro Hraised. destruct failed as [|i rest] eqn:E; [now elim Hraised|].
    exists i.
    assert (Hin : In i (filter read_badly finished))
      by (fold failed; rewrite E; now left).
    apply filter_In in Hin. destruct Hin as [Hin Hbad]. split.
    + eapply Permutation_in; eassumption.
    + unfold read_badly, exited_badly, exited_ok in Hbad.
      apply andb_true_iff in Hbad. destruct Hbad as [Hd Hbad].
      apply negb_true_iff, Z.eqb_neq in Hbad. now split.
  - intros [i [Hin [Hd Hrc]]].
    assert (Hf : In i failed).
    { apply filter_In. split.
      - eapply Permutation_in; [apply Permutation_sym|]; eassumption.
      - unfold read_badly, exited_badly, exited_ok. rewrite Hd. cbn [andb].
        apply negb_true_iff. now apply Z.eqb_neq. }
    destruct failed; [destruct Hf | discriminate].
Qed.

(** Three jobs whose output is read, of which only the second exits with a
    code other than 0, in whichever order they are found finished: the
    failure raised names the second job's output file and nothing else,
    and the first and third jobs get their success lines. *)
Lemma launcher_three_jobs_any_order
      (out1 out2 out3 : Path) (p1 p2 p3 : Popen)
      (finished : list (Popen * Path)) :
  decodes p1 = true -> decodes p2 = true -> decodes p3 = true ->
  returncode p1 = 0%Z -> returncode p2 <> 0%Z -> returncode p3 = 0%Z ->
  Permutation finished [(p1, out1); (p2, out2); (p3, out3)] ->
  raised (anim_rig_generator finished) = Some ("Failed Files: " ++ name out2) /\
  In ("CreateAnim: " ++ str out1) (printed (anim_rig_generator finished)) /\
  In ("CreateAnim: " ++ str out3) (printed (anim_rig_generator finished)) /\
  In (err p2) (printed (anim_rig_generator finished)).
Proof.
  intros D1 D2 D3 H1 H2 H3 Hperm.
  unfold anim_rig_generator. rewrite join_all_lists. unfold summarise.
  cbn [success errors printed raised]. rewrite !map_map. cbn [fst snd].
  apply Z.eqb_neq in H2.
  assert (Hb : filter read_badly [(p1, out1); (p2, out2); (p3, out3)]
               = [(p2, out2)]).
  { unfold read_badly, exited_badly, exited_ok. cbn [filter fst].
    now rewrite D1, D2, D3, H1, H2, H3. }
  assert (Ho : filter read_ok [(p1, out1); (p2, out2); (p3, out3)]
               = [(p1, out1); (p3, out3)]).
  { unfold read_ok, exited_ok. cbn [filter fst].
    now rewrite D1, D2, D3, H1, H2, H3. }
  pose proof (filter_permutation read_badly _ _ Hperm) as Hbad.
  pose proof (filter_permutation read_ok _ _ Hperm) as Hok.
  rewrite Hb in Hbad. rewrite Ho in Hok.
  apply Permutation_sym, Permutation_length_1_inv in Hbad.
  rewrite Hbad.
  split; [reflexivity|]. cbn [map fst snd].
  repeat split.
  - apply in_or_app. left.
    apply (in_map (fun i => "CreateAnim: " ++ str (snd i)) _ (p1, out1)).
    eapply Permutation_in; [apply Permutation_sym; exact Hok|]. now left.
  - apply in_or_app. left.
    apply (in_map (fun i => "CreateAnim: " ++ str (snd i)) _ (p3, out3)).
    eapply Permutation_in; [apply Permutation_sym; exact Hok|]. right; now left.
  - apply in_or_app. right. now left.
Qed.


(** The same batch when the second job's output can be read: the failure
    is raised and names it. *)
Lemma decodable_failure_is_reported :
  let job1 := (mkPopen 0 "done" "" true,
               mkPath "C:/Rigs/Hero_Anim.mb" "Hero_Anim.mb") in
  let job2 := (mkPopen 1 "" "Traceback: export failed" true,
               mkPath "C:/Rigs/Horse_Anim.mb" "Horse_Anim.mb") in
  let job3 := (mkPopen 0 "done" "" true,
               mkPath "C:/Rigs/Cart_Anim.mb" "Cart_Anim.mb") in
  anim_rig_generator [job3; job2; job1] =
    mkReport ["CreateAnim: C:/Rigs/Cart_Anim.mb";
              "CreateAnim: C:/Rigs/Hero_Anim.mb";
              "Traceback: export failed"]
             (Some "Failed Files: Horse_Anim.mb").
Proof. reflexivity. Qed.

End Launcher.

(** * Further properties of the code *)

(** ** More on [min] and [max] *)

Section MinMax.

Lemma min_is_one (a b : Qc) : Py.min a b = a \/ Py.min a b = b.
Proof. unfold Py.min. destruct (b ?= a); auto. Qed.

Lemma max_is_one (a b : Qc) : Py.max a b = a \/ Py.max a b = b.
Proof. unfold Py.max. destruct (b ?= a); auto. Qed.

Lemma min_greatest (m a b : Qc) : m <= a -> m <= b -> m <= Py.min a b.
Proof. intros Ha Hb. now destruct (min_is_one a b) as [-> | ->]. Qed.

Lemma max_least (m a b : Qc) : a <= m -> b <= m -> Py.max a b <= m.
Proof. intros Ha Hb. now destruct (max_is_one a b) as [-> | ->]. Qed.

Lemma min_swap (p q m : Qc) :
  Py.min p (Py.min q m) = Py.min q (Py.min p m).
Proof.
  apply Qcle_antisym; repeat apply min_greatest.
  - eapply Qcle_trans; [apply min_le_second | apply min_le_first].
  - apply min_le_first.
  - eapply Qcle_trans; [apply min_le_second | apply min_le_second].
  - eapply Qcle_trans; [apply min_le_second | apply min_le_first].
  - apply min_le_first.
  - eapply Qcle_trans; [apply min_le_second | apply min_le_second].
Qed.

Lemma max_swap (p q m : Qc) :
  Py.max p (Py.max q m) = Py.max q (Py.max p m).
Proof.
  apply Qcle_antisym; repeat apply max_least.
  - eapply Qcle_trans; [apply max_ge_first | apply max_ge_second].
  - apply max_ge_first.
  - eapply Qcle_trans; [apply max_ge_second | apply max_ge_second].
  - eapply Qcle_trans; [apply max_ge_first | apply max_ge_second].
  - apply max_ge_first.
  - eapply Qcle_trans; [apply max_ge_second | apply max_ge_second].
Qed.

Lemma include_point_swap (b : bounds) (p q : vec) :
  include_point (include_point b p) q = include_point (include_point b q) p.
Proof.
  unfold include_point. cbn [min_x min_y min_z max_x max_y max_z].
  f_equal; apply min_swap || apply max_swap.
Qed.

Lemma fold_include_permutation (pts pts' : list vec) :
  Permutation pts pts' ->
  forall b, fold_left include_point pts b = fold_left include_point pts' b.
Proof.
  induction 1 as [|p l l' _ IH|p q l|l l' l'' _ IH1 _ IH2]; intro b; cbn.
  - reflexivity.
  - apply IH.
  - now rewrite include_point_swap.
  - now rewrite IH1.
Qed.

End MinMax.

(** ** More on the extent of a control *)

Section MoreExtents.

(** X1. The extent returned for a control bounds every control vertex that
    was sampled for it. *)
Theorem bounds_cover_every_sampled_point
        (s s' : Scene) (control : string) (b : bounds) (p : vec) :
  get_bounds_of_anim_control_shapes control s = (Returns b, s') ->
  In p (sampled_points s control) ->
  covers b p.
Proof.
  rewrite get_bounds_run. intros Hrun Hin.
  destruct (shapes_under s control); [discriminate Hrun|].
  injection Hrun as <- _. unfold extent. now apply fold_include_covers.
Qed.

Lemma bounds_cover_every_sampled_point_example :
  let s := Demo.rig [] Demo.keep_camera
                    (Camera (Arr (Demo.pt 3 3 (-7))) (Py.of_int 10)) in
  covers (extent s "ball_anim") (Demo.pt 6 6 6).
Proof.
  intro s.
  apply (bounds_cover_every_sampled_point s
           (with_selected ["ball_animShape"%string] s) "ball_anim").
  - rewrite get_bounds_run. reflexivity.
  - right. left. reflexivity.
Defined.

(** X2. The extent does not depend on the order in which the shapes and
    their control vertices come: two scenes that give a control the same
    sampled points, in any order, give it the same extent. *)
Theorem bounds_independent_of_sampling_order (s s' : Scene) (control : string) :
  shapes_under s control <> [] ->
  shapes_under s' control <> [] ->
  Permutation (sampled_points s control) (sampled_points s' control) ->
  fst (get_bounds_of_anim_control_shapes control s) =
  fst (get_bounds_of_anim_control_shapes control s').
Proof.
  intros Hs Hs' Hperm. rewrite !get_bounds_run.
  destruct (shapes_under s control); [now elim Hs|].
  destruct (shapes_under s' control); [now elim Hs'|].
  cbn [fst]. f_equal. unfold extent.
  now apply fold_include_permutation.
Qed.

Lemma bounds_independent_of_sampling_order_example :
  let there := Fixtures.scene [("arm_anim", ["ring"; "bar"])]%string
                 [("ring", [Demo.pt 0 0 0; Demo.pt 2 5 1]);
                  ("bar", [Demo.pt (-1) 3 3])]%string [] [] in
  let back := Fixtures.scene [("arm_anim", ["bar"; "ring"])]%string
                 [("ring", [Demo.pt 2 5 1; Demo.pt 0 0 0]);
                  ("bar", [Demo.pt (-1) 3 3])]%string [] [] in
  fst (get_bounds_of_anim_control_shapes "arm_anim" there) =
  fst (get_bounds_of_anim_control_shapes "arm_anim" back).
Proof.
  intros there back.
  apply (bounds_independent_of_sampling_order there back "arm_anim").
  - discriminate.
  - discriminate.
  - apply (Permutation_rev [Demo.pt 0 0 0; Demo.pt 2 5 1; Demo.pt (-1) 3 3]).
Defined.

(** The running minimum of a fold either is where it started or is the
    coordinate of a point; it never exceeds either. *)
Lemma fold_min (coordinate : vec -> Qc) (bound : bounds -> Qc)
      (Hstep : forall b p,
          bound (include_point b p) = Py.min (coordinate p) (bound b))
      (pts : list vec) :
  forall b,
    let r := bound (fold_left include_point pts b) in
    (r = bound b \/ attained pts coordinate r) /\
    r <= bound b /\ (forall p, In p pts -> r <= coordinate p).
Proof.
  induction pts as [|p0 pts IH]; intro b; cbn [fold_left].
  - cbv zeta. split; [now left|]. split; [apply Qcle_refl | now intros p []].
  - specialize (IH (include_point b p0)). cbv zeta in *.
    destruct IH as [Hwhich [Hle Hall]]. rewrite Hstep in *.
    split; [|split].
    + destruct Hwhich as [E | [p [Hin E]]].
      * destruct (min_is_one (coordinate p0) (bound b)) as [E' | E'].
        -- right. exists p0. split; [now left | congruence].
        -- left. congruence.
      * right. exists p. split; [now right | exact E].
    + eapply Qcle_trans; [exact Hle | apply min_le_second].
    + intros p [<- | Hin].
      * eapply Qcle_trans; [exact Hle | apply min_le_first].
      * now apply Hall.
Qed.

Lemma fold_max (coordinate : vec -> Qc) (bound : bounds -> Qc)
      (Hstep : forall b p,
          bound (include_point b p) = Py.max (coordinate p) (bound b))
      (pts : list vec) :
  forall b,
    let r := bound (fold_left include_point pts b) in
    (r = bound b \/ attained pts coordinate r) /\
    bound b <= r /\ (forall p, In p pts -> coordinate p <= r).
Proof.
  induction pts as [|p0 pts IH]; intro b; cbn [fold_left].
  - cbv zeta. split; [now left|]. split; [apply Qcle_refl | now intros p []].
  - specialize (IH (include_point b p0)). cbv zeta in *.
    destruct IH as [Hwhich [Hle Hall]]. rewrite Hstep in *.
    split; [|split].
    + destruct Hwhich as [E | [p [Hin E]]].
      * destruct (max_is_one (coordinate p0) (bound b)) as [E' | E'].
        -- right. exists p0. split; [now left | congruence].
        -- left. congruence.
      * right. exists p. split; [now right | exact E].
    + eapply Qcle_trans; [apply max_ge_second | exact Hle].
    + intros p [<- | Hin].
      * eapply Qcle_trans; [apply max_ge_first | exact Hle].
      * now apply Hall.
Qed.

Lemma min_attained_within (coordinate : vec -> Qc) (bound : bounds -> Qc)
      (Hstep : forall b p,
          bound (include_point b p) = Py.min (coordinate p) (bound b))
      (pts : list vec) (p0 : vec) (b : bounds) :
  In p0 pts -> coordinate p0 <= bound b ->
  attained pts coordinate (bound (fold_left include_point pts b)).
Proof.
  intros Hin Hle.
  destruct (fold_min coordinate bound Hstep pts b) as [[E | Hatt] [_ Hall]];
    [|exact Hatt].
  exists p0. split; [exact Hin|]. cbv zeta in *.
  apply Qcle_antisym; [now apply Hall | now rewrite E].
Qed.

Lemma max_attained_within (coordinate : vec -> Qc) (bound : bounds -> Qc)
      (Hstep : forall b p,
          bound (include_point b p) = Py.max (coordinate p) (bound b))
      (pts : list vec) (p0 : vec) (b : bounds) :
  In p0 pts -> bound b <= coordinate p0 ->
  attained pts coordinate (bound (fold_left include_point pts b)).
Proof.
  intros Hin Hle.
  destruct (fold_max coordinate bound Hstep pts b) as [[E | Hatt] [_ Hall]];
    [|exact Hatt].
  exists p0. split; [exact Hin|]. cbv zeta in *.
  apply Qcle_antisym; [now rewrite E | now apply Hall].
Qed.

(** X3. When at least one control vertex is sampled and all of them lie
    within the initial bound volume (every coordinate between -9999999 and
    9999999), the extent returned is tight: each of its six numbers is the
    corresponding coordinate of a sampled control vertex. *)
Theorem bounds_tight_within_sentinel
        (s s' : Scene) (control : string) (b : bounds) :
  get_bounds_of_anim_control_shapes control s = (Returns b, s') ->
  sampled_points s control <> [] ->
  Forall within_sentinel (sampled_points s control) ->
  let pts := sampled_points s control in
  attained pts vx (min_x b) /\ attained pts vy (min_y b) /\
  attained pts vz (min_z b) /\ attained pts vx (max_x b) /\
  attained pts vy (max_y b) /\ attained pts vz (max_z b).
Proof.
  rewrite get_bounds_run. intros Hrun Hne Hin pts.
  destruct (shapes_under s control); [discriminate Hrun|].
  injection Hrun as <- _. unfold extent. fold pts in Hne, Hin |- *.
  destruct pts as [|p0 rest] eqn:E; [now elim Hne|].
  assert (H0 : within_sentinel p0) by now inversion Hin.
  destruct H0 as [[Hx1 Hx2] [[Hy1 Hy2] [Hz1 Hz2]]].
  repeat split.
  - apply (min_attained_within vx min_x) with (p0 := p0);
      [reflexivity | now left | exact Hx2].
  - apply (min_attained_within vy min_y) with (p0 := p0);
      [reflexivity | now left | exact Hy2].
  - apply (min_attained_within vz min_z) with (p0 := p0);
      [reflexivity | now left | exact Hz2].
  - apply (max_attained_within vx max_x) with (p0 := p0);
      [reflexivity | now left | exact Hx1].
  - apply (max_attained_within vy max_y) with (p0 := p0);
      [reflexivity | now left | exact Hy1].
  - apply (max_attained_within vz max_z) with (p0 := p0);
      [reflexivity | now left | exact Hz1].
Qed.

Lemma bounds_tight_within_sentinel_example :
  let s := Demo.rig [] Demo.keep_camera
                    (Camera (Arr (Demo.pt 3 3 (-7))) (Py.of_int 10)) in
  attained (sampled_points s "box_anim") vx (min_x (extent s "box_anim")).
Proof.
  intro s.
  refine (proj1 (bounds_tight_within_sentinel s
                   (with_selected ["box_animShape"%string] s) "box_anim"
                   (extent s "box_anim") _ _ _)).
  - rewrite get_bounds_run. reflexivity.
  - discriminate.
  - repeat constructor; discriminate.
Defined.

(** X4. The initial bound volume is not unbounded: when every sampled
    control vertex lies beyond 9999999 on the x axis, the extent returned
    starts at 9999999, short of all of them (and likewise it ends at
    -9999999 when they all lie below that). *)
Theorem bounds_clipped_beyond_sentinel
        (s s' : Scene) (control : string) (b : bounds) :
  get_bounds_of_anim_control_shapes control s = (Returns b, s') ->
  (Forall (fun p => sentinel < vx p) (sampled_points s control) ->
   min_x b = sentinel) /\
  (Forall (fun p => vx p < - sentinel) (sampled_points s control) ->
   max_x b = - sentinel).
Proof.
  rewrite get_bounds_run. intros Hrun.
  destruct (shapes_under s control); [discriminate Hrun|].
  injection Hrun as <- _. unfold extent. split; intro Hall.
  - destruct (fold_min vx min_x (fun b p => eq_refl)
                       (sampled_points s control) initial_bounds)
      as [[E | [p [Hin E]]] [Hle _]]; [exact E|].
    cbv zeta in *. rewrite Forall_forall in Hall. specialize (Hall p Hin).
    exfalso. apply (Qclt_not_le _ _ Hall). now rewrite <- E.
  - destruct (fold_max vx max_x (fun b p => eq_refl)
                       (sampled_points s control) initial_bounds)
      as [[E | [p [Hin E]]] [Hle _]]; [exact E|].
    cbv zeta in *. rewrite Forall_forall in Hall. specialize (Hall p Hin).
    exfalso. apply (Qclt_not_le _ _ Hall). now rewrite <- E.
Qed.

Lemma bounds_clipped_beyond_sentinel_example :
  let s := Fixtures.scene [("far_anim", ["far_animShape"])]%string
             [("far_animShape", [Demo.pt 20000000 0 0; Demo.pt 20000005 1 1])]%string
             [] [] in
  min_x (extent s "far_anim") = sentinel.
Proof.
  intro s.
  refine (proj1 (bounds_clipped_beyond_sentinel s
                   (with_selected ["far_animShape"%string] s) "far_anim"
                   (extent s "far_anim") _) _).
  - rewrite get_bounds_run. reflexivity.
  - repeat constructor.
Defined.

End MoreExtents.

(** ** More on centres and on the mean centroid *)

Section MoreCentroid.

Lemma half_nonneg : 0 <= Q2Qc (1 # 2).
Proof. discriminate. Qed.

Lemma one_minus_half : 1 - Q2Qc (1 # 2) = Q2Qc (1 # 2).
Proof. apply Qc_is_canon. reflexivity. Qed.

Lemma centre_on_axis (a d : Qc) :
  a <= d ->
  a <= d + (a - d) * Q2Qc (1 # 2) /\ d + (a - d) * Q2Qc (1 # 2) <= d.
Proof.
  intro H. apply Qcle_minus_iff in H.
  assert (Hpos : 0 <= (d + - a) * Q2Qc (1 # 2)).
  { rewrite <- (Qcmult_0_l (Q2Qc (1 # 2))).
    apply Qcmult_le_compat_r; [exact H | apply half_nonneg]. }
  split; apply Qcle_minus_iff.
  - replace (d + (a - d) * Q2Qc (1 # 2) + - a)
      with ((d + - a) * (1 - Q2Qc (1 # 2))) by ring.
    now rewrite one_minus_half.
  - replace (d + - (d + (a - d) * Q2Qc (1 # 2)))
      with ((d + - a) * Q2Qc (1 # 2)) by ring.
    exact Hpos.
Qed.

(** X5. The centre computed for an extent with min <= max on every axis
    lies inside that extent. *)
Theorem centre_inside_extent (b : bounds) :
  well_formed b -> covers b (centre_of b).
Proof.
  intros [Hx [Hy Hz]].
  unfold covers, centre_of, get_centre_in_bounds, vadd, vsub, vscale.
  cbn [vx vy vz].
  repeat split; now apply centre_on_axis.
Qed.

Lemma centre_inside_extent_example :
  let s := Demo.rig [] Demo.keep_camera
                    (Camera (Arr (Demo.pt 3 3 (-7))) (Py.of_int 10)) in
  covers (extent s "box_anim") (centre_of (extent s "box_anim")).
Proof.
  intro s. apply centre_inside_extent.
  repeat split; discriminate.
Defined.

Lemma mem_In (x : string) (l : list string) : mem x l = true <-> In x l.
Proof.
  unfold mem. rewrite existsb_exists. split.
  - intros [y [Hin E]]. apply String.eqb_eq in E. now subst.
  - intro Hin. exists x. split; [exact Hin | apply String.eqb_refl].
Qed.

Lemma clean_targets_keeps (s : Scene) (targets : list string) :
  snd (clean_targets s targets) = filter (has_shapes s) targets.
Proof.
  induction targets as [|t rest IH]; [reflexivity|].
  cbn [clean_targets filter]. unfold has_shapes at 1.
  destruct (clean_targets s rest) as [shapes targets_].
  cbn [snd] in IH. destruct (shapes_under s t); cbn [snd]; now rewrite IH.
Qed.

(** X6. The targets whose centres are averaged are exactly the given
    targets that have shapes and are not listed as invisible, each of them
    once however often it was given. *)
Theorem remaining_targets_are_visible_shaped_targets
        (s : Scene) (targets : list string) :
  NoDup (set_difference (snd (clean_targets s targets)) (invisible_nodes s)) /\
  (forall i,
      In i (set_difference (snd (clean_targets s targets)) (invisible_nodes s))
      <-> In i targets /\ shapes_under s i <> [] /\ ~ In i (invisible_nodes s)) /\
  List.length (centre_points s targets) =
  List.length (set_difference (snd (clean_targets s targets)) (invisible_nodes s)).
Proof.
  unfold set_difference. split; [apply NoDup_nodup | split].
  - intro i. rewrite nodup_In, filter_In, clean_targets_keeps, filter_In.
    rewrite negb_true_iff, <- not_true_iff_false, mem_In.
    unfold has_shapes. destruct (shapes_under s i); split.
    + intros [[_ H] _]. discriminate H.
    + intros [_ [H _]]. now elim H.
    + intros [[Hin _] Hvis]. repeat split; [exact Hin | discriminate | exact Hvis].
    + intros [Hin [_ Hvis]]. repeat split; assumption.
  - unfold centre_points, remaining_targets, set_difference.
    apply length_map.
Qed.

Lemma remaining_targets_same_set (s : Scene) (targets targets' : list string) :
  (forall x, In x targets <-> In x targets') ->
  Permutation (remaining_targets s targets) (remaining_targets s targets').
Proof.
  intro Hsame. unfold remaining_targets, set_difference.
  apply NoDup_Permutation; try apply NoDup_nodup.
  intro i. rewrite !nodup_In, !filter_In, !clean_targets_keeps, !filter_In.
  now rewrite Hsame.
Qed.

(** X7. The centre points that are averaged depend on the set of targets
    only: giving the targets in another order, or giving some of them
    several times, gives the same centre points, each as often as before,
    possibly in another order. *)
Theorem centre_points_depend_on_target_set
        (s : Scene) (targets targets' : list string) :
  (forall x, In x targets <-> In x targets') ->
  Permutation (centre_points s targets) (centre_points s targets').
Proof.
  intro Hsame. unfold centre_points.
  apply Permutation_map. now apply remaining_targets_same_set.
Qed.

Lemma centre_points_depend_on_target_set_example :
  let s := Demo.rig [] Demo.keep_camera
                    (Camera (Arr (Demo.pt 3 3 (-7))) (Py.of_int 10)) in
  Permutation
    (centre_points s ["ball_anim"; "box_anim"; "ball_anim"]%string)
    (centre_points s ["box_anim"; "ball_anim"]%string).
Proof.
  intro s. apply centre_points_depend_on_target_set.
  intro x. cbn. tauto.
Defined.

End MoreCentroid.

(** ** More on what [framefit_animrig] does to the scene *)

Section MoreFraming.

(** X8. [framefit_animrig] returns without an exception and changes at most
    the selection and the camera it is given: every other camera, the undo
    chunk count, the reported tracebacks and the scene's nodes are as
    before. *)
Theorem framefit_animrig_touches_selection_and_camera_only
        (s : Scene) (cam : string) (targets : list string) (f : Qc) :
  let result := framefit_animrig cam targets f s in
  fst result = Returns tt /\
  (forall n, n <> cam -> cameras (snd result) n = cameras s n) /\
  open_chunks (snd result) = open_chunks s /\
  tracebacks (snd result) = tracebacks s /\
  node_names (snd result) = node_names s /\
  type_of (snd result) = type_of s /\
  shapes_under (snd result) = shapes_under s /\
  curve_cvs (snd result) = curve_cvs s /\
  invisible_nodes (snd result) = invisible_nodes s /\
  fit (snd result) = fit s /\
  panel_camera (snd result) = panel_camera s.
Proof.
  cbv zeta. rewrite framefit_animrig_run. cbn [fst snd].
  split; [reflexivity|]. unfold framed, after_view_fit.
  destruct (snd (clean_targets s targets)); [repeat split|].
  cbv zeta. destruct (Py.eqb f 0).
  - split; [|repeat split]. intros n Hn.
    rewrite camera_after_select. now rewrite camera_elsewhere.
  - split; [|repeat split]. intros n Hn.
    rewrite !camera_elsewhere by exact Hn.
    rewrite camera_after_select. now rewrite camera_elsewhere.
Qed.




(** The camera once [framefit_animrig] has moved it. *)
Lemma camera_after_framing (s : Scene) (cam : string)
      (targets : list string) (f : Qc) :
  snd (clean_targets s targets) <> [] ->
  Py.eqb f 0 = false ->
  let before := cameras (after_view_fit cam targets s) cam in
  cameras (framed cam targets f s) cam =
  Camera
    (add (translate before)
         (scale (sub (mean (centre_points s targets)) (translate before))
                (clamp f)))
    (Py.of_int (Py.int (centerOfInterest before * (1 - clamp f)))).
Proof.
  intros Hts Hf. cbv zeta. unfold framed. rewrite Hf.
  destruct (snd (clean_targets s targets)); [now elim Hts|].
  cbv zeta. now rewrite !camera_after_set.
Qed.

Lemma position_after_framing (s : Scene) (cam : string)
      (targets : list string) (f : Qc) (p c : vec) :
  centre_points s targets <> [] ->
  mean (centre_points s targets) = Arr c ->
  translate (cameras (after_view_fit cam targets s) cam) = Arr p ->
  translate (cameras (framed cam targets f s) cam) =
  Arr (vadd p (vscale (vsub c p) (clamp f))).
Proof.
  intros Hne Hc Hp.
  assert (Hts : snd (clean_targets s targets) <> []).
  { intro E. now apply Hne, no_targets_no_centres. }
  destruct (Py.eqb f 0) eqn:Ef.
  - apply eqb_true in Ef. subst f. rewrite framed_zero by exact Hts.
    rewrite camera_after_select, Hp, clamp_0, stay_put. reflexivity.
  - rewrite camera_after_framing by assumption.
    cbn [translate]. now rewrite Hp, Hc.
Qed.

Lemma clamp_at_least_one (f : Qc) : 1 <= f -> clamp f = 1.
Proof.
  intro H. destruct (Qcle_lt_or_eq _ _ H) as [Hlt | <-].
  - now apply clamp_above.
  - reflexivity.
Qed.

Lemma one_not_below (f : Qc) : 1 <= f -> Py.eqb f 0 = false.
Proof.
  intro H. unfold Py.eqb.
  assert (E : (f ?= 0) = Gt).
  { apply Qcgt_alt. eapply Qclt_le_trans; [|exact H]. reflexivity. }
  now rewrite E.
Qed.

(** X10. A fraction of 1 or more sets the camera's centre of interest to
    0, whatever it was, as soon as one target has shapes. *)
Theorem full_zoom_collapses_centre_of_interest
        (s : Scene) (cam : string) (targets : list string) (f : Qc) :
  1 <= f ->
  snd (clean_targets s targets) <> [] ->
  centerOfInterest (cameras (snd (framefit_animrig cam targets f s)) cam) = 0.
Proof.
  intros Hf Hts. rewrite framefit_animrig_run. cbn [snd].
  rewrite camera_after_framing by (try apply one_not_below; assumption).
  cbn [centerOfInterest]. rewrite clamp_at_least_one by exact Hf.
  replace (centerOfInterest (cameras (after_view_fit cam targets s) cam)
           * (1 - 1)) with 0 by ring.
  reflexivity.
Qed.

Lemma full_zoom_collapses_centre_of_interest_example :
  let s := Demo.rig [] Demo.keep_camera
                    (Camera (Arr (Demo.pt 3 3 (-7))) (Py.of_int 10)) in
  centerOfInterest
    (cameras (snd (framefit_animrig "persp" Demo.both (Py.of_int 3) s)) "persp")
  = 0.
Proof.
  intro s.
  apply (full_zoom_collapses_centre_of_interest s "persp" Demo.both
           (Py.of_int 3)).
  - discriminate.
  - discriminate.
Defined.

End MoreFraming.

(** ** How far the camera and its centre of interest can go *)

Section Ranges.

Lemma clamp_range (f : Qc) : 0 <= clamp f /\ clamp f <= 1.
Proof.
  unfold clamp. split.
  - apply max_ge_first.
  - apply max_least; [discriminate | apply min_le_second].
Qed.

Lemma clamp_inside (f : Qc) : 0 <= f -> f <= 1 -> clamp f = f.
Proof.
  intros H0 H1. unfold clamp.
  assert (Hmin : Py.min f 1 = f).
  { destruct (min_is_one f 1) as [E | E]; [exact E|].
    apply Qcle_antisym; [apply min_le_first|].
    rewrite E. exact H1. }
  rewrite Hmin.
  destruct (max_is_one 0 f) as [E | E]; [|exact E].
  apply Qcle_antisym; [|apply max_ge_second].
  rewrite E. exact H0.
Qed.

Lemma product_nonneg (u v : Qc) : 0 <= u -> 0 <= v -> 0 <= u * v.
Proof.
  intros Hu Hv. rewrite <- (Qcmult_0_l v). now apply Qcmult_le_compat_r.
Qed.

Lemma difference_nonneg (a b : Qc) : a <= b -> 0 <= b + - a.
Proof. apply Qcle_minus_iff. Qed.

Lemma int_within (x : Qc) :
  0 <= x -> 0 <= Py.of_int (Py.int x) /\ Py.of_int (Py.int x) <= x.
Proof.
  destruct x as [[n d] Hcanon]. unfold Qcle, Py.of_int, Py.int.
  cbn [this Q2Qc Qnum Qden]. intro H.
  rewrite Qred_correct in H.
  assert (Hn : (0 <= n)%Z).
  { unfold Qle in H. cbn in H. lia. }
  rewrite !Qred_correct. unfold Qle, inject_Z. cbn [Qnum Qden].
  rewrite Z.quot_div_nonneg by lia.
  pose proof (Z.mul_div_le n (Zpos d) ltac:(lia)) as Hmul.
  pose proof (Z.div_pos n (Zpos d) Hn ltac:(lia)) as Hpos.
  split; lia.
Qed.

Lemma eqb_false (f : Qc) : f <> 0 -> Py.eqb f 0 = false.
Proof.
  intro H. unfold Py.eqb. destruct (f ?= 0) eqn:E; try reflexivity.
  apply Qceq_alt in E. now elim H.
Qed.

(** X12. A camera whose centre of interest is not negative keeps it that
    way: after a call with a fraction other than 0 it is a whole number
    between 0 and the value read back, so it never grows. *)
Theorem centre_of_interest_never_grows
        (s : Scene) (cam : string) (targets : list string) (f : Qc) :
  snd (clean_targets s targets) <> [] ->
  f <> 0 ->
  0 <= centerOfInterest (cameras (after_view_fit cam targets s) cam) ->
  let after := centerOfInterest
                 (cameras (snd (framefit_animrig cam targets f s)) cam) in
  0 <= after /\
  after <= centerOfInterest (cameras (after_view_fit cam targets s) cam) /\
  exists z, after = Py.of_int z.
Proof.
  intros Hts Hf Hd. cbv zeta. rewrite framefit_animrig_run. cbn [snd].
  rewrite camera_after_framing by (try apply eqb_false; assumption).
  cbn [centerOfInterest].
  set (d := centerOfInterest (cameras (after_view_fit cam targets s) cam)) in *.
  destruct (clamp_range f) as [H0 H1].
  assert (Hprod : 0 <= d * (1 - clamp f)).
  { apply product_nonneg; [exact Hd|].
    now apply difference_nonneg in H1. }
  assert (Hle : d * (1 - clamp f) <= d).
  { apply Qcle_minus_iff.
    replace (d + - (d * (1 - clamp f))) with (d * clamp f) by ring.
    now apply product_nonneg. }
  destruct (int_within _ Hprod) as [Hi0 Hi1].
  split; [exact Hi0 | split].
  - eapply Qcle_trans; eassumption.
  - eexists. reflexivity.
Qed.

Lemma centre_of_interest_never_grows_example :
  let s := Demo.rig [] Demo.keep_camera
                    (Camera (Arr (Demo.pt 3 3 (-7))) (Q2Qc (15 # 2))) in
  centerOfInterest
    (cameras (snd (framefit_animrig "persp" Demo.both (Q2Qc (1 # 3)) s)) "persp")
  <= Q2Qc (15 # 2).
Proof.
  intro s.
  refine (proj1 (proj2 (centre_of_interest_never_grows s "persp" Demo.both
                          (Q2Qc (1 # 3)) _ _ _))).
  - discriminate.
  - distinct_numbers.
  - discriminate.
Defined.

End Ranges.

(** ** More on the entry point *)

Section MoreEntryPoint.

Lemma clean_targets_ext (s s' : Scene) (targets : list string) :
  shapes_under s = shapes_under s' ->
  clean_targets s targets = clean_targets s' targets.
Proof.
  intro H. induction targets as [|t rest IH]; [reflexivity|].
  cbn [clean_targets]. now rewrite IH, H.
Qed.

Lemma framed_in_chunk (cam : string) (targets : list string) (f : Qc)
      (s : Scene) :
  framed cam targets f (chunk_opened s) =
  with_open_chunks (S (open_chunks s)) (framed cam targets f s).
Proof.
  unfold framed, after_view_fit, centre_points, remaining_targets.
  rewrite (clean_targets_ext (chunk_opened s) s) by reflexivity.
  destruct (snd (clean_targets s targets)); [reflexivity|].
  cbv zeta. destruct (Py.eqb f 0); reflexivity.
Qed.

(** The scene the entry point leaves: the one [framefit_animrig] leaves for
    a fraction of 1/4, with the selection put back. *)
Lemma entry_point_state (target_camera : option string) (s : Scene) :
  framefit_animrig_current_panel_to_selected target_camera s =
  (Returns tt,
   with_selected (selected s)
     (with_open_chunks (open_chunks s)
        (framed (resolved_camera target_camera s) (resolved_targets s)
                (Q2Qc (1 # 4)) s))).
Proof.
  unfold framefit_animrig_current_panel_to_selected.
  rewrite entry_point_run, framefit_animrig_run, framed_in_chunk.
  reflexivity.
Qed.

(** X13. The entry point returns without an exception, having done to the
    camera it resolved what [framefit_animrig] does with a fraction of 1/4
    on the targets it resolved; the selection, the undo chunk count, the
    reported tracebacks and every other camera are as it found them. *)
Theorem entry_point_frames_resolved_camera_only
        (target_camera : option string) (s : Scene) :
  let cam := resolved_camera target_camera s in
  let result := framefit_animrig_current_panel_to_selected target_camera s in
  fst result = Returns tt /\
  cameras (snd result) cam =
    cameras (snd (framefit_animrig cam (resolved_targets s) (Q2Qc (1 # 4)) s))
            cam /\
  (forall n, n <> cam -> cameras (snd result) n = cameras s n) /\
  selected (snd result) = selected s /\
  open_chunks (snd result) = open_chunks s /\
  tracebacks (snd result) = tracebacks s.
Proof.
  cbv zeta. rewrite entry_point_state, framefit_animrig_run. cbn [fst snd].
  split; [reflexivity | split; [reflexivity | split]].
  - intros n Hn. cbn [cameras with_selected with_open_chunks].
    unfold framed, after_view_fit.
    destruct (snd (clean_targets s (resolved_targets s))); [reflexivity|].
    cbv zeta. destruct (Py.eqb (Q2Qc (1 # 4)) 0).
    + rewrite camera_after_select. now rewrite camera_elsewhere.
    + rewrite !camera_elsewhere by exact Hn.
      rewrite camera_after_select. now rewrite camera_elsewhere.
  - split; [reflexivity | split; [reflexivity|]].
    cbn [tracebacks with_selected with_open_chunks].
    unfold framed, after_view_fit.
    destruct (snd (clean_targets s (resolved_targets s))); [reflexivity|].
    cbv zeta. destruct (Py.eqb (Q2Qc (1 # 4)) 0); reflexivity.
Qed.

(** X14. When none of the resolved targets has a shape (in particular when
    nothing is selected and the scene has no rig control), the entry point
    leaves the scene exactly as it found it. *)
Theorem entry_point_with_nothing_to_frame
        (target_camera : option string) (s : Scene) :
  snd (clean_targets s (resolved_targets s)) = [] ->
  framefit_animrig_current_panel_to_selected target_camera s = (Returns tt, s).
Proof.
  intro H. rewrite entry_point_state. unfold framed. rewrite H.
  now destruct s.
Qed.

Lemma entry_point_with_nothing_to_frame_example :
  let s := Fixtures.scene [("prop", ["propShape"])]%string [] [] [] in
  framefit_animrig_current_panel_to_selected None s = (Returns tt, s).
Proof.
  intro s. apply entry_point_with_nothing_to_frame. reflexivity.
Defined.

(** X15. With centre points gathered for the resolved targets, the entry
    point moves the resolved camera a quarter of the way from where it is
    read back to the mean centroid. *)
Theorem entry_point_moves_a_quarter
        (target_camera : option string) (s : Scene) (p c : vec) :
  let cam := resolved_camera target_camera s in
  let targets := resolved_targets s in
  centre_points s targets <> [] ->
  mean (centre_points s targets) = Arr c ->
  translate (cameras (after_view_fit cam targets s) cam) = Arr p ->
  translate
    (cameras (snd (framefit_animrig_current_panel_to_selected target_camera s))
             cam)
  = Arr (vadd p (vscale (vsub c p) (Q2Qc (1 # 4)))).
Proof.
  intros cam targets Hne Hc Hp. rewrite entry_point_state. cbn [snd].
  cbn [cameras with_selected with_open_chunks].
  fold cam targets.
  now rewrite (position_after_framing s cam targets (Q2Qc (1 # 4)) p c).
Qed.

Lemma entry_point_moves_a_quarter_example :
  let s := Demo.rig [] Demo.keep_camera
                    (Camera (Arr (Demo.pt 3 3 (-7))) (Py.of_int 10)) in
  translate
    (cameras (snd (framefit_animrig_current_panel_to_selected None s)) "persp")
  = Arr (V (Py.of_int 3) (Py.of_int 3) (Q2Qc (-9 # 2))).
Proof.
  intro s.
  refine (eq_trans
            (entry_point_moves_a_quarter None s (Demo.pt 3 3 (-7))
                                         (Demo.pt 3 3 3) _ _ _) _).
  - discriminate.
  - same_point.
  - reflexivity.
  - same_point.
Defined.

End MoreEntryPoint.

(** ** The rig controls *)

Section RigControls.

Open Scope string_scope.

Lemma length_append (a b : string) :
  String.length (a ++ b) = (String.length a + String.length b)%nat.
Proof. induction a as [|c a IH]; cbn; [reflexivity | now rewrite IH]. Qed.

Lemma substring_whole (a : string) : substring 0 (String.length a) a = a.
Proof. induction a as [|c a IH]; cbn; [reflexivity | now rewrite IH]. Qed.

Lemma substring_after (pre suf : string) :
  substring (String.length pre) (String.length suf) (pre ++ suf) = suf.
Proof.
  induction pre as [|c pre IH]; cbn; [apply substring_whole | exact IH].
Qed.

Lemma split_at (a : string) :
  forall i, (i <= String.length a)%nat ->
            a = substring 0 i a ++ substring i (String.length a - i) a.
Proof.
  induction a as [|c a IH]; intros i Hi.
  - cbn in Hi. assert (i = 0%nat) by lia. subst. reflexivity.
  - destruct i as [|i].
    + cbn. now rewrite substring_whole.
    + cbn in Hi. cbn. f_equal. apply IH. lia.
Qed.

(** A name matches the pattern ['*suffix'] exactly when it is some text
    followed by the suffix. *)
Lemma ends_with_spec (suffix name : string) :
  ends_with suffix name = true <-> exists pre, name = pre ++ suffix.
Proof.
  unfold ends_with. rewrite andb_true_iff, Nat.leb_le, String.eqb_eq. split.
  - intros [Hle Hsub].
    exists (substring 0 (String.length name - String.length suffix) name).
    pose proof (split_at name (String.length name - String.length suffix)
                         ltac:(lia)) as H.
    replace (String.length name - (String.length name - String.length suffix))%nat
      with (String.length suffix) in H by lia.
    now rewrite Hsub in H.
  - intros [pre ->]. rewrite length_append. split; [lia|].
    replace (String.length pre + String.length suffix - String.length suffix)%nat
      with (String.length pre) by lia.
    apply substring_after.
Qed.

(** X16. [get_all_rig_controls] returns, without an exception and without
    touching the scene, exactly the transforms and joints of the scene
    whose name is some text followed by [_anim] or by [_control]. *)
Theorem rig_controls_are_suffixed_transforms_and_joints (s : Scene) :
  exists controls,
    get_all_rig_controls s = (Returns controls, s) /\
    forall n,
      In n controls <->
      In n (node_names s) /\
      (type_of s n = transform \/ type_of s n = joint) /\
      ((exists pre, n = pre ++ "_anim") \/ (exists pre, n = pre ++ "_control")).
Proof.
  eexists. split; [reflexivity|]. intro n.
  rewrite in_flat_map. split.
  - intros [suffix [Hsuf Hin]]. apply filter_In in Hin.
    destruct Hin as [Hin Hb]. apply andb_true_iff in Hb.
    destruct Hb as [Hends Htype]. apply ends_with_spec in Hends.
    split; [exact Hin | split].
    + unfold is_transform_or_joint in Htype.
      destruct (type_of s n); auto; discriminate Htype.
    + destruct Hsuf as [<- | [<- | []]]; auto.
  - intros [Hin [Htype Hname]].
    assert (Hb : is_transform_or_joint s n = true).
    { unfold is_transform_or_joint. now destruct Htype as [-> | ->]. }
    destruct Hname as [Hname | Hname]; apply ends_with_spec in Hname.
    + exists "_anim". split; [now left|].
      apply filter_In. split; [exact Hin | now rewrite Hname, Hb].
    + exists "_control". split; [right; now left|].
      apply filter_In. split; [exact Hin | now rewrite Hname, Hb].
Qed.

End RigControls.

(** ** The launcher as a whole *)

Section WholeLauncher.

Import Headless Launch.
Open Scope string_scope.

Variable get_target_path_from_set : string -> string -> Path.
Variable pathlib_Path : string -> Path.

Local Abbreviation data_of := (anim_set_data get_target_path_from_set).
Local Abbreviation generator := (Launch.anim_rig_generator get_target_path_from_set pathlib_Path).
Local Abbreviation command_of := (command pathlib_Path).

Lemma dict_keys_In (l : list string) (x : string) :
  In x (dict_keys l) <-> In x l.
Proof.
  induction l as [|k rest IH]; [reflexivity|].
  cbn [dict_keys In]. rewrite filter_In, IH, negb_true_iff, String.eqb_neq.
  destruct (string_dec k x) as [-> | Hne]; [tauto|].
  split; [tauto|]. intros [E | Hin]; [tauto|]. right. split; congruence.
Qed.


Lemma data_keys (h : Host) (target_anim_sets : option (list string))
      (extension : string) :
  map fst (data_of h target_anim_sets extension) =
  if given target_anim_sets
  then filter (fun a => mem a (requested target_anim_sets))
              (dict_keys (anim_sets h))
  else dict_keys (anim_sets h).
Proof.
  unfold anim_set_data, requested.
  assert (Hmap : forall l : list string,
             map fst (map (fun a => (a, get_target_path_from_set a extension)) l)
             = l).
  { intro l. rewrite map_map. cbn [fst]. apply map_id. }
  destruct (given target_anim_sets) eqn:G; [|apply Hmap].
  destruct target_anim_sets as [req|]; [|discriminate G].
  generalize (dict_keys (anim_sets h)). intro l.
  induction l as [|a l IH]; [reflexivity|].
  cbn [map filter fst]. destruct (mem a req); cbn [map fst]; now rewrite IH.
Qed.

Lemma spawned_app (a b : list event) :
  spawned (List.app a b) = List.app (spawned a) (spawned b).
Proof. unfold spawned. apply flat_map_app. Qed.

Lemma spawned_prints (lines : list string) : spawned (map Print lines) = [].
Proof. induction lines as [|l lines IH]; [reflexivity | exact IH]. Qed.

Lemma spawned_jobs (h : Host) (pre : option string)
      (jobs : list (string * Path)) :
  spawned
    (flat_map
       (fun job =>
          [Print ("Creating " ++ fst job ++ " to " ++ str (snd job));
           Spawn (command_of h pre (fst job) (snd job))])
       jobs)
  = map (fun job => command_of h pre (fst job) (snd job)) jobs.
Proof.
  induction jobs as [|j jobs IH]; [reflexivity|].
  cbn [flat_map map]. rewrite spawned_app, IH. reflexivity.
Qed.


Lemma data_keys_In (h : Host) (target_anim_sets : option (list string))
      (extension : string) (a : string) :
  In a (map fst (data_of h target_anim_sets extension)) <->
  In a (anim_sets h) /\
  (given target_anim_sets = false \/ In a (requested target_anim_sets)).
Proof.
  rewrite data_keys. destruct (given target_anim_sets) eqn:G.
  - rewrite filter_In, dict_keys_In, mem_In. split.
    + intros [H1 H2]. auto.
    + intros [H1 [H2 | H2]]; [discriminate H2 | auto].
  - rewrite dict_keys_In. split; [auto | tauto].
Qed.

(** The run of a launcher that gets as far as cloning. *)
Lemma generator_run (h : Host) (target_anim_sets : option (list string))
      (pre : option string) (extension : string) :
  proceeds h = true ->
  let r := Headless.anim_rig_generator
             (finish_order h
                (processes get_target_path_from_set pathlib_Path h
                           target_anim_sets pre extension)) in
  let run := generator h target_anim_sets pre extension in
  ended run = match raised r with
              | None => Returned
              | Some message => FailedFiles message
              end /\
  In Save (trace run) /\
  In (CopyFile (str (scene_name h)) (str (temp_file pathlib_Path h)))
     (trace run).
Proof.
  intro Hp. unfold proceeds in Hp. apply andb_true_iff in Hp.
  destruct Hp as [Hexe Hsave].
  unfold Launch.anim_rig_generator, processes. rewrite Hexe. cbn [negb].
  assert (Hesc : match save_raises h with
                 | Some e => if Py.isinstance_Exception e then None else Some e
                 | None => None
                 end = None).
  { destruct (save_raises h) as [e|]; [now rewrite Hsave | reflexivity]. }
  rewrite Hesc. cbv zeta. cbn [trace ended].
  split; [reflexivity | split].
  - apply in_or_app. left. right. right. now left.
  - apply in_or_app. right. apply in_or_app. left.
    apply in_or_app. right. apply in_or_app. right. right. now left.
Qed.

Lemma raised_none_iff (finished : list (Popen * Path)) :
  raised (Headless.anim_rig_generator finished) = None <->
  forall p, In p finished -> decodes (fst p) = true ->
            returncode (fst p) = 0%Z.
Proof.
  unfold Headless.anim_rig_generator. rewrite join_all_lists.
  unfold summarise. cbn [errors raised]. split.
  - intros H p Hin Hd.
    destruct (Z.eqb (returncode (fst p)) 0) eqn:E; [now apply Z.eqb_eq|].
    assert (Hbad : In p (filter read_badly finished)).
    { apply filter_In. split; [exact Hin|].
      unfold read_badly, exited_badly, exited_ok. now rewrite Hd, E. }
    destruct (filter read_badly finished); [destruct Hbad | discriminate H].
  - intro Hall.
    destruct (filter read_badly finished) as [|p rest] eqn:E; [reflexivity|].
    assert (Hin : In p (filter read_badly finished))
      by (rewrite E; now left).
    apply filter_In in Hin. destruct Hin as [Hin Hbad].
    unfold read_badly, exited_badly, exited_ok in Hbad.
    apply andb_true_iff in Hbad. destruct Hbad as [Hd Hbad].
    rewrite (Hall p Hin Hd) in Hbad. discriminate Hbad.
Qed.

(** X18. Once it has got as far as cloning, the launcher returns normally
    exactly when every worker it started for which [communicate()] returns
    exits with code 0; otherwise it ends in the "Failed Files"
    [AssertionError].  A worker over whose output [communicate()] raises
    does not count, whatever its exit code.  This holds in whatever order
    the workers finish. *)
Theorem launcher_returns_iff_every_read_worker_succeeds
        (h : Host) (target_anim_sets : option (list string))
        (pre : option string) (extension : string) :
  (forall l, Permutation (finish_order h l) l) ->
  proceeds h = true ->
  let outcome := ended (generator h target_anim_sets pre extension) in
  (outcome = Returned <->
   forall p, In p (processes get_target_path_from_set pathlib_Path h
                             target_anim_sets pre extension) ->
             decodes (fst p) = true ->
             returncode (fst p) = 0%Z) /\
  (outcome = Returned \/ exists message, outcome = FailedFiles message).
Proof.
  intros Hperm Hp. cbv zeta.
  destruct (generator_run h target_anim_sets pre extension Hp) as [Hrun _].
  rewrite Hrun.
  set (procs := processes _ _ h target_anim_sets pre extension) in *.
  pose proof (raised_none_iff (finish_order h procs)) as Hnone.
  split.
  - split.
    + intros Hret p Hin Hd.
      destruct (raised (Headless.anim_rig_generator (finish_order h procs)));
        [discriminate Hret|].
      apply (proj1 Hnone eq_refl); [|exact Hd].
      eapply Permutation_in; [apply Permutation_sym, Hperm | exact Hin].
    + intro Hall.
      assert (E : raised (Headless.anim_rig_generator (finish_order h procs))
                  = None).
      { apply Hnone. intros p Hin Hd. apply Hall; [|exact Hd].
        eapply Permutation_in; [apply Hperm | exact Hin]. }
      now rewrite E.
  - destruct (raised (Headless.anim_rig_generator (finish_order h procs)));
      [right; eexists; reflexivity | now left].
Qed.

(** X19. When the scene lists no set, or a non-empty request names none of
    the sets it lists, the launcher starts no worker and returns normally;
    it has saved and cloned the scene all the same. *)
Theorem nothing_to_export
        (h : Host) (target_anim_sets : option (list string))
        (pre : option string) (extension : string) :
  (forall l, Permutation (finish_order h l) l) ->
  proceeds h = true ->
  (forall a, In a (anim_sets h) ->
             given target_anim_sets = true /\
             ~ In a (requested target_anim_sets)) ->
  let r := generator h target_anim_sets pre extension in
  spawned (trace r) = [] /\
  ended r = Returned /\
  In Save (trace r) /\
  In (CopyFile (str (scene_name h)) (str (temp_file pathlib_Path h))) (trace r).
Proof.
  intros Hperm Hp Hnone. cbv zeta.
  assert (Hdata : data_of h target_anim_sets extension = []).
  { apply map_eq_nil with (f := fst).
    destruct (map fst (data_of h target_anim_sets extension)) as [|a l] eqn:E;
      [reflexivity|].
    assert (Hin : In a (map fst (data_of h target_anim_sets extension)))
      by (rewrite E; now left).
    apply data_keys_In in Hin. destruct Hin as [Hin Hreq].
    destruct (Hnone a Hin) as [Hg Hnot].
    destruct Hreq as [Hreq | Hreq]; [congruence | now elim Hnot]. }
  destruct (generator_run h target_anim_sets pre extension Hp)
    as [Hrun [Hsave Hcopy]].
  assert (Hsp : spawned (trace (generator h target_anim_sets pre extension))
                = []).
  { unfold Launch.anim_rig_generator. unfold proceeds in Hp.
    apply andb_true_iff in Hp. destruct Hp as [Hexe Hsv]. rewrite Hexe.
    cbn [negb]. rewrite Hdata.
    destruct (save_raises h) as [e|]; [rewrite Hsv|]; cbn [trace];
      rewrite !spawned_app, spawned_prints;
      destruct (temp_parent_exists h), (temp_file_exists h); reflexivity. }
  split; [exact Hsp|].
  split; [|split; assumption].
  rewrite Hrun. unfold processes. rewrite Hdata. cbn [map].
  assert (Hfin : finish_order h [] = []).
  { apply Permutation_nil, Permutation_sym, Hperm. }
  now rewrite Hfin.
Qed.

Lemma append_assoc (a b c : string) : (a ++ b) ++ c = a ++ (b ++ c).
Proof. induction a as [|x a IH]; cbn; [reflexivity | now rewrite IH]. Qed.

(** X21. Every worker's command line ends with the pre-export script path;
    when none is given, it ends with the text [None]. *)
Theorem command_line_ends_with_pre_export_script
        (h : Host) (target_anim_sets : option (list string))
        (pre : option string) (extension : string) (c : string) :
  In c (spawned (trace (generator h target_anim_sets pre extension))) ->
  exists front,
    c = front ++ " " ++ match pre with Some script => script | None => "None" end.
Proof.
  intro Hin.
  assert (Hjob : exists job, c = command_of h pre (fst job) (snd job)).
  { unfold Launch.anim_rig_generator in Hin.
    destruct (mayapy_exists h); [|destruct Hin]. cbn [negb] in Hin.
    destruct (match save_raises h with
              | Some e => if Py.isinstance_Exception e then None else Some e
              | None => None
              end); [destruct Hin|].
    cbv zeta in Hin. cbn [trace] in Hin.
    rewrite !spawned_app, spawned_prints, spawned_jobs in Hin.
    assert (Hin' : In c (map (fun job => command_of h pre (fst job) (snd job))
                             (data_of h target_anim_sets extension))).
    { destruct (temp_parent_exists h), (temp_file_exists h);
        cbn in Hin; now rewrite app_nil_r in Hin. }
    apply in_map_iff in Hin'. destruct Hin' as [job [E _]].
    exists job. now symmetry. }
  destruct Hjob as [job ->]. unfold command.
  exists (quote ++ str (mayapy h) ++ quote ++ " " ++ headless_script h ++ " "
          ++ str (temp_file pathlib_Path h) ++ " " ++ fst job ++ " "
          ++ str (snd job)).
  rewrite !append_assoc. reflexivity.
Qed.

End WholeLauncher.

(** ** The launcher on a small batch *)

Section WholeLauncherRuns.

Import Headless Launch.
Open Scope string_scope.

Lemma launcher_returns_iff_every_read_worker_succeeds_example :
  ended (Launch.anim_rig_generator LaunchDemo.target_path LaunchDemo.as_path
           (LaunchDemo.host 0) None None "mb") = Returned.
Proof.
  refine (proj2 (proj1 (launcher_returns_iff_every_read_worker_succeeds
                          LaunchDemo.target_path LaunchDemo.as_path
                          (LaunchDemo.host 0) None None "mb" _ _)) _).
  - intro l. apply Permutation_sym, Permutation_rev.
  - reflexivity.
  - intros p Hin _. cbn in Hin. destruct Hin as [<- | [<- | []]]; reflexivity.
Defined.

Lemma nothing_to_export_example :
  let r := Launch.anim_rig_generator LaunchDemo.target_path LaunchDemo.as_path
             (LaunchDemo.host 1) (Some ["Cow_Anim"]) None "mb" in
  spawned (trace r) = [] /\ ended r = Returned.
Proof.
  intro r.
  destruct (nothing_to_export LaunchDemo.target_path LaunchDemo.as_path
              (LaunchDemo.host 1) (Some ["Cow_Anim"]) None "mb")
    as [Hs [He _]].
  - intro l. apply Permutation_sym, Permutation_rev.
  - reflexivity.
  - intros a Hin. split; [reflexivity|].
    cbn in Hin |- *. intros [<- | []].
    destruct Hin as [H | [H | [H | []]]]; discriminate H.
  - split; assumption.
Defined.

Lemma command_line_ends_with_pre_export_script_example :
  exists front,
    (quote ++ "C:/Maya/bin/mayapy.exe" ++ quote
     ++ " D:/tools/AnimRigRunHeadless.py C:/Temp/Maya/CreateAnimRig_Temp_herd.mb"
     ++ " Horse_Anim C:/Rigs/Horse_Anim.mb None")
    = front ++ " None".
Proof.
  apply (command_line_ends_with_pre_export_script
           LaunchDemo.target_path LaunchDemo.as_path
           (LaunchDemo.host 0) None None "mb").
  right. left. reflexivity.
Defined.

End WholeLauncherRuns.

(** ** Targets that reach the bounds query, and targets that are all hidden *)

Section ReachedTargets.

(** X22. Inside [framefit_animrig] the bounds query cannot fail: every
    target whose centre is to be gathered has shapes, so the query returns
    its extent whatever the selection is at that point, and the handler
    for a control without shapes is never entered. *)
Theorem bounds_query_succeeds_for_remaining_targets
        (s : Scene) (cam : string) (targets : list string) (i : string)
        (sel : list string) :
  In i (remaining_targets s targets) ->
  fst (get_bounds_of_anim_control_shapes i
         (with_selected sel (after_view_fit cam targets s)))
  = Returns (extent s i).
Proof.
  intro Hin. rewrite get_bounds_run.
  unfold remaining_targets, set_difference in Hin.
  apply nodup_In, filter_In in Hin. destruct Hin as [Hin _].
  apply clean_targets_have_shapes in Hin. unfold has_shapes in Hin.
  cbn [shapes_under with_selected after_view_fit set_camera with_cameras].
  destruct (shapes_under s i); [discriminate Hin | reflexivity].
Qed.

Lemma bounds_query_succeeds_for_remaining_targets_example :
  let s := Demo.rig ["ball_anim"%string] Demo.frame_from_front
                    (Camera (Arr (Demo.pt 3 3 (-7))) (Py.of_int 10)) in
  fst (get_bounds_of_anim_control_shapes "box_anim"
         (with_selected [] (after_view_fit "persp" Demo.both s)))
  = Returns (extent s "box_anim").
Proof.
  intro s.
  apply (bounds_query_succeeds_for_remaining_targets s "persp" Demo.both).
  left. reflexivity.
Defined.

(** X23. When some target has shapes but every such target is listed as
    invisible, a call with a fraction other than 0 sets the camera position
    to [nan] on every axis. *)
Theorem hidden_targets_send_camera_to_nan
        (s : Scene) (cam : string) (targets : list string) (f : Qc) :
  snd (clean_targets s targets) <> [] ->
  remaining_targets s targets = [] ->
  f <> 0 ->
  translate (cameras (snd (framefit_animrig cam targets f s)) cam) = NaNs.
Proof.
  intros Hts Hnone Hf. rewrite framefit_animrig_run. cbn [snd].
  rewrite camera_after_framing by (try apply eqb_false; assumption).
  cbn [translate]. unfold centre_points. rewrite Hnone. cbn [map mean sub scale].
  now destruct (translate _).
Qed.

Lemma hidden_targets_send_camera_to_nan_example :
  let s := Demo.rig Demo.both Demo.frame_from_front
                    (Camera (Arr (Demo.pt 3 3 (-7))) (Py.of_int 10)) in
  translate (cameras (snd (framefit_animrig "persp" Demo.both 1 s)) "persp")
  = NaNs.
Proof.
  intro s. apply hidden_targets_send_camera_to_nan.
  - discriminate.
  - reflexivity.
  - distinct_numbers.
Defined.

End ReachedTargets.

(** * The numeric steps in any arithmetic, and in double precision *)

(** ** In any arithmetic *)

Section AnyArithmetic.

Import Numbers.

Variable A : arithmetic.

Hypothesis zero_below_one : ltb A (zero A) (one A) = true.

Lemma clamp_is_clamped (f : num A) : Core.clamp A f = Core.clamped A f.
Proof.
  unfold Core.clamp, Core.clamped, Core.min, Core.max.
  destruct (ltb A (one A) f); [now rewrite zero_below_one | reflexivity].
Qed.

(** The position lines 174-186 write, for a fraction other than 0. *)
Lemma position_written (centre_pos camera_pos : Core.point A) (d f : num A) :
  eqb A f (zero A) = false ->
  Core.written_position (Core.zoom A centre_pos camera_pos d f) =
  Some (Core.padd A camera_pos
          (Core.pscale A (Core.psub A centre_pos camera_pos)
                       (Core.clamped A f))).
Proof.
  intro Hf. unfold Core.zoom. rewrite Hf. cbv zeta.
  now rewrite clamp_is_clamped.
Qed.


End AnyArithmetic.

(** ** In exact arithmetic: what the scene-level embedding computes *)

Section ExactArithmetic.

Lemma exact_zero_below_one :
  Numbers.ltb Numbers.exact (Numbers.zero Numbers.exact)
              (Numbers.one Numbers.exact) = true.
Proof. reflexivity. Qed.

Lemma min_exact (a b : Qc) : Core.min Numbers.exact a b = Py.min a b.
Proof.
  unfold Core.min, Py.min. cbn [Numbers.ltb Numbers.exact].
  now destruct (b ?= a).
Qed.

Lemma max_exact (a b : Qc) : Core.max Numbers.exact a b = Py.max a b.
Proof.
  unfold Core.max, Py.max. cbn [Numbers.ltb Numbers.exact].
  destruct (b ?= a) eqn:E.
  - apply Qceq_alt in E. subst b.
    assert (H : (a ?= a) = Eq) by now apply Qceq_alt.
    now rewrite H.
  - assert (H : (a ?= b) = Gt) by (apply Qcgt_alt; now apply Qclt_alt).
    now rewrite H.
  - assert (H : (a ?= b) = Lt) by (apply Qclt_alt; now apply Qcgt_alt in E).
    now rewrite H.
Qed.

Lemma clamp_exact (f : Qc) : Core.clamp Numbers.exact f = clamp f.
Proof.
  unfold Core.clamp, clamp. now rewrite min_exact, max_exact.
Qed.

Lemma clamped_exact (f : Qc) : Core.clamped Numbers.exact f = clamped f.
Proof.
  rewrite <- clamp_clamped, <- clamp_exact. symmetry.
  apply clamp_is_clamped, exact_zero_below_one.
Qed.

Lemma get_centre_in_bounds_exact (a b c d e f : Qc) :
  Core.get_centre_in_bounds Numbers.exact a b c d e f =
  Core.of_vec (get_centre_in_bounds a b c d e f).
Proof. reflexivity. Qed.

Lemma padd_exact (a b : vec) :
  Core.padd Numbers.exact (Core.of_vec a) (Core.of_vec b) =
  Core.of_vec (vadd a b).
Proof. reflexivity. Qed.

Lemma to_vec_of_vec (v : vec) : Core.to_vec (Core.of_vec v) = v.
Proof. now destruct v. Qed.

Lemma vadd_assoc (a b c : vec) : vadd (vadd a b) c = vadd a (vadd b c).
Proof.
  destruct a, b, c. unfold vadd. cbn [vx vy vz]. apply vec_ext; ring.
Qed.

Lemma vadd_zero (a : vec) : vadd a vzero = a.
Proof.
  destruct a. unfold vadd, vzero. cbn [vx vy vz]. apply vec_ext; ring.
Qed.

Lemma sum_in_order_exact (rest : list vec) :
  forall first,
    Core.to_vec (fold_left (Core.padd Numbers.exact)
                           (map Core.of_vec rest) (Core.of_vec first)) =
    vadd first (vsum rest).
Proof.
  unfold vsum.
  induction rest as [|v rest IH]; intro first; cbn [map fold_left fold_right].
  - now rewrite to_vec_of_vec, vadd_zero.
  - now rewrite padd_exact, IH, vadd_assoc.
Qed.

(** [numpy.mean] of the scene-level embedding is the in-order mean of the
    numeric core, run on exact numbers. *)
Lemma mean_exact (rows : list vec) :
  mean rows =
  match Core.mean Numbers.exact (map Core.of_vec rows) with
  | Some m => Arr (Core.to_vec m)
  | None => NaNs
  end.
Proof.
  destruct rows as [|first rest]; [reflexivity|].
  cbn [map Core.mean]. unfold mean, count.
  pose proof (sum_in_order_exact rest first) as H.
  change (vadd first (vsum rest)) with (vsum (first :: rest)) in H.
  rewrite <- H. cbn [List.length]. rewrite length_map. reflexivity.
Qed.

Lemma zoom_exact (c p : vec) (d f : Qc) :
  Core.zoom Numbers.exact (Core.of_vec c) (Core.of_vec p) d f =
  if Py.eqb f 0 then Core.Untouched
  else Core.Moved (Core.of_vec (vadd p (vscale (vsub c p) (clamp f))))
                  (Some (Py.int (d * (1 - clamp f)))).
Proof.
  unfold Core.zoom. rewrite clamp_exact. reflexivity.
Qed.

(** What [framefit_animrig] leaves of the camera, once the preliminary
    [viewFit] has run, is what lines 174-190 compute from the mean centroid
    and from the position and centre of interest read back. *)
Lemma framefit_animrig_zooms
      (s : Scene) (cam : string) (targets : list string) (f : Qc)
      (p c : vec) :
  centre_points s targets <> [] ->
  mean (centre_points s targets) = Arr c ->
  translate (cameras (after_view_fit cam targets s) cam) = Arr p ->
  let before := cameras (after_view_fit cam targets s) cam in
  cameras (snd (framefit_animrig cam targets f s)) cam =
  match Core.zoom Numbers.exact (Core.of_vec c) (Core.of_vec p)
                  (centerOfInterest before) f with
  | Core.Moved moveto_pos (Some coi) =>
      Camera (Arr (Core.to_vec moveto_pos)) (Py.of_int coi)
  | _ => before
  end.
Proof.
  intros Hne Hc Hp. cbv zeta.
  assert (Hts : snd (clean_targets s targets) <> []).
  { intro E. now apply Hne, no_targets_no_centres. }
  rewrite framefit_animrig_run, zoom_exact. cbn [snd].
  destruct (Py.eqb f 0) eqn:Ef.
  - apply eqb_true in Ef. subst f. now rewrite framed_zero.
  - rewrite camera_after_framing by assumption.
    rewrite Hp, Hc. reflexivity.
Qed.

Lemma nonzero_when_clamped_nonzero_exact (f : Qc) :
  Numbers.eqb Numbers.exact (Core.clamped Numbers.exact f)
              (Numbers.zero Numbers.exact) = false ->
  Numbers.eqb Numbers.exact f (Numbers.zero Numbers.exact) = false.
Proof.
  cbn [Numbers.eqb Numbers.exact Numbers.zero]. intro H.
  destruct (Py.eqb f 0) eqn:E; [|reflexivity].
  apply eqb_true in E. subst f. exact H.
Qed.

End ExactArithmetic.

(** ** In double precision *)

Section DoublePrecision.

Import PrimFloat.

#[local] Set Warnings "-inexact-float".

Local Open Scope float_scope.

Local Abbreviation double := Numbers.double.

Local Abbreviation xyz := (Core.P (A := Numbers.double)).

Lemma double_zero_below_one :
  Numbers.ltb double (Numbers.zero double) (Numbers.one double) = true.
Proof. reflexivity. Qed.

Lemma double_constants :
  Numbers.zero double = 0 /\ Numbers.one double = 1 /\
  Numbers.half double = 0.5 /\ Numbers.of_nat double 7 = 7.
Proof. repeat split. Qed.

(** [int()] on doubles: toward zero on either side, and no result on nan
    and on the infinities. *)
Lemma int_of_double_examples :
  Numbers.int_of_double 7.5 = Some 7%Z /\
  Numbers.int_of_double (-7.5) = Some (-7)%Z /\
  Numbers.int_of_double 0.9999999999999998 = Some 0%Z /\
  Numbers.int_of_double (-0) = Some 0%Z /\
  Numbers.int_of_double 1e22 = Some 10000000000000000000000%Z /\
  Numbers.int_of_double nan = None /\
  Numbers.int_of_double infinity = None /\
  Numbers.int_of_double neg_infinity = None.
Proof. vm_compute. repeat split. Qed.


(** More runs of lines 174-190 in double precision.  With a fraction of
    0.9 the product [10 * (1 - 0.9)] is just below 1 and 0 is written.
    With a fraction of 1 a camera at 3.0 heading for 0.1 ends on
    0.10000000000000009, and one at 6.72 heading for -1.34 ends on
    -1.3400000000000007, past the centroid. *)
Lemma zoom_in_double_examples :
  Core.zoom double (xyz 3 3 3) (xyz 3 3 (-7)) 10 0.9 =
    Core.Moved (xyz 3 3 2) (Some 0%Z) /\
  Core.zoom double (xyz 3 3 3) (xyz 3 3 (-7)) 10 0.5 =
    Core.Moved (xyz 3 3 (-2)) (Some 5%Z) /\
  Core.zoom double (xyz 0.1 (-1.34) 0) (xyz 3 6.72 0) 10 1 =
    Core.Moved (xyz 0.10000000000000009 (-1.3400000000000007) 0)
               (Some 0%Z) /\
  Core.zoom double (xyz 3 3 3) (xyz 3 3 (-7)) 10 0 = Core.Untouched /\
  Core.zoom double (xyz 3 3 3) (xyz 3 3 (-7)) 10 (-0) = Core.Untouched.
Proof. repeat split. Qed.


(** C8, as the claim has it, fails in double precision: for an extent
    from -5.0 to -1.8 on every axis [get_centre_in_bounds] returns
    -3.4000000000000004 where [(min + max) / 2] is -3.4. *)
Lemma centre_is_not_midpoint_in_double :
  let centre := Core.get_centre_in_bounds double (-5) (-5) (-5)
                                          (-1.8) (-1.8) (-1.8) in
  let middle := Core.midpoint double (-5) (-5) (-5) (-1.8) (-1.8) (-1.8) in
  centre = xyz (-3.4000000000000004) (-3.4000000000000004)
                  (-3.4000000000000004) /\
  middle = xyz (-3.4) (-3.4) (-3.4) /\
  (Core.px centre =? Core.px middle) = false /\
  centre <> middle.
Proof.
  cbv zeta. split; [|split; [|split]].
  - reflexivity.
  - reflexivity.
  - reflexivity.
  - intro H. apply (f_equal (fun q : Core.point double => Core.px q =? -3.4)) in H.
    vm_compute in H. discriminate H.
Qed.

(** In double precision the mean depends on the order of the rows: centres
    at 0.1, 0.2 and 0.3 average to 0.20000000000000004 in that order and to
    0.19999999999999998 in the opposite one. *)
Lemma mean_depends_on_order_in_double :
  let a := xyz 0.1 0 0 in
  let b := xyz 0.2 0 0 in
  let c := xyz 0.3 0 0 in
  Core.mean double [a; b; c] = Some (xyz 0.20000000000000004 0 0) /\
  Core.mean double [c; b; a] = Some (xyz 0.19999999999999998 0 0) /\
  Core.mean double [a; b; c] <> Core.mean double [c; b; a].
Proof.
  cbv zeta. split; [|split].
  - reflexivity.
  - reflexivity.
  - intro H.
    apply (f_equal (fun m : option (Core.point double) =>
                      match m with
                             | Some q => Core.px q =? 0.20000000000000004
                             | None => false
                             end)) in H.
    vm_compute in H. discriminate H.
Qed.

(** A fraction that compares equal to 0 is neither above 0 nor above 1, so
    a fraction whose clamped value is not 0 is not 0 itself. *)
Lemma zero_is_not_above (f : float) :
  (f =? 0) = true -> (0 <? f) = false /\ (1 <? f) = false.
Proof.
  rewrite FloatAxioms.eqb_spec, !FloatAxioms.ltb_spec.
  change (FloatOps.Prim2SF 0) with (SpecFloat.S754_zero false).
  destruct (FloatOps.Prim2SF f) as [sg|sg| |sg m e].
  - intros _. split; reflexivity.
  - destruct sg; discriminate.
  - discriminate.
  - destruct sg; discriminate.
Qed.

Lemma nonzero_when_clamped_nonzero_double (f : float) :
  Numbers.eqb double (Core.clamped double f) (Numbers.zero double) = false ->
  Numbers.eqb double f (Numbers.zero double) = false.
Proof.
  intro H. change (Numbers.eqb double f (Numbers.zero double)) with (f =? 0).
  destruct (f =? 0) eqn:E; [|reflexivity].
  destruct (zero_is_not_above f E) as [H0 H1].
  unfold Core.clamped in H.
  change (Numbers.ltb double (Numbers.one double) f) with (1 <? f) in H.
  change (Numbers.ltb double (Numbers.zero double) f) with (0 <? f) in H.
  rewrite H0, H1 in H. vm_compute in H. discriminate H.
Qed.

Lemma above_one_is_not_zero (f : float) : (1 <? f) = true -> (f =? 0) = false.
Proof.
  rewrite FloatAxioms.eqb_spec, FloatAxioms.ltb_spec.
  change (FloatOps.Prim2SF 0) with (SpecFloat.S754_zero false).
  destruct (FloatOps.Prim2SF f) as [sg|sg| |sg m e].
  - discriminate.
  - destruct sg; reflexivity.
  - reflexivity.
  - destruct sg; reflexivity.
Qed.

(** [int(d * 0.0)] is 0 for every number [d], and raises when [d] is nan
    or an infinity, as [int(d)] does. *)
Lemma int_of_product_with_zero (d : float) :
  Numbers.int_of_double (d * 0) =
  match Numbers.int_of_double d with Some _ => Some 0%Z | None => None end.
Proof.
  unfold Numbers.int_of_double. rewrite FloatAxioms.mul_spec.
  change (FloatOps.Prim2SF 0) with (SpecFloat.S754_zero false).
  destruct (FloatOps.Prim2SF d) as [sg|sg| |sg m e]; reflexivity.
Qed.

(** In double precision too a fraction of 1 or more leaves a centre of
    interest of 0, whatever number it was. *)
Lemma full_zoom_in_double (centre_pos camera_pos : Core.point double)
      (d f : float) :
  (1 <? f) = true \/ f = 1 ->
  Core.written_coi (Core.zoom double centre_pos camera_pos d f) =
  match Numbers.int_of_double d with Some _ => Some 0%Z | None => None end.
Proof.
  intro Hf.
  assert (Hz : Numbers.eqb double f (Numbers.zero double) = false).
  { destruct Hf as [Hf | ->]; [now apply above_one_is_not_zero | reflexivity]. }
  unfold Core.zoom. rewrite Hz. cbv zeta. cbn [Core.written_coi].
  rewrite (clamp_is_clamped double double_zero_below_one).
  assert (Hc : Core.clamped double f = 1).
  { destruct Hf as [Hf | ->]; [|reflexivity].
    unfold Core.clamped.
    change (Numbers.ltb double (Numbers.one double) f) with (1 <? f).
    now rewrite Hf. }
  rewrite Hc. apply int_of_product_with_zero.
Qed.

End DoublePrecision.
